(** * Task tracker: a shallow embedding of [server.js] and its properties

    The service keeps two in-memory arrays ([users], [tasks]) and a counter
    ([taskId]); six Express handlers read and update them.  Each handler is
    embedded as a function from the store and the request's inputs to the
    handler's outcome and the store it leaves behind.

    Conventions of the embedding:
    - a JavaScript value that reaches a handler from a parsed JSON body or a
      query string is a [jsval]; an absent field destructures to
      [VUndefined];
    - a JavaScript string is a [string], one [ascii] per code unit (code units
      0..255);
    - a JavaScript Number that holds an integer is a [Z]; the counter and the
      results of [parseInt] are read as exact integers (what a Number is
      below 2^53), and [parseInt]'s [NaN] is [None];
    - [bcryptjs] is not part of the repository: it is the interface
      [Bcrypt], whose operations may reject (the awaited promise throws);
    - the handler of [/register] does all of its reading and writing of
      [users] after its only [await], and the other handlers that write are
      synchronous, so a handler is one atomic step on the store. *)

From Stdlib Require Import ZArith List String Ascii Bool Lia Sorted.
Import ListNotations.
Open Scope string_scope.
Open Scope list_scope.
Open Scope Z_scope.

(** ** JavaScript values and the built-ins the handlers call *)

Module JS.

#[warnings="-register-all"]
Inductive jsval : Type :=
| VUndefined
| VNull
| VBool (b : bool)
| VNum (n : Z)          (* a Number that holds an integer *)
| VStr (s : string)
| VArr (elems : list jsval)
| VObj (fields : list (string * jsval)).

(** [a === b] where one side comes from the request being handled and the
    other from the store (that is, from an earlier request): primitives
    compare by value; two arrays or objects are distinct references, so
    they are never [===]. *)
Definition strict_eq (a b : jsval) : bool :=
  match a, b with
  | VUndefined, VUndefined => true
  | VNull, VNull => true
  | VBool x, VBool y => Bool.eqb x y
  | VNum x, VNum y => Z.eqb x y
  | VStr x, VStr y => String.eqb x y
  | _, _ => false
  end.

(** [array.includes(v)] for an array of string literals (SameValueZero). *)
Definition includes (arr : list string) (v : jsval) : bool :=
  match v with
  | VStr s => existsb (String.eqb s) arr
  | _ => false
  end.

Definition code_unit (c : ascii) : Z := Z.of_N (N_of_ascii c).

(** StrWhiteSpaceChar, for code units below 256: TAB, LF, VT, FF, CR, SP,
    NBSP. *)
Definition is_ws (c : ascii) : bool :=
  let n := code_unit c in
  ((9 <=? n) && (n <=? 13)) || (n =? 32) || (n =? 160).

Fixpoint trim_start (s : string) : string :=
  match s with
  | String c s' => if is_ws c then trim_start s' else s
  | EmptyString => EmptyString
  end.

(** The value of a code unit as a digit: 0-9, a-z and A-Z stand for
    0..35. *)
Definition digit_val (c : ascii) : option Z :=
  let n := code_unit c in
  if (48 <=? n) && (n <=? 57) then Some (n - 48)
  else if (97 <=? n) && (n <=? 122) then Some (n - 97 + 10)
  else if (65 <=? n) && (n <=? 90) then Some (n - 65 + 10)
  else None.

Definition radix_digit (R : Z) (c : ascii) : option Z :=
  match digit_val c with
  | Some d => if d <? R then Some d else None
  | None => None
  end.

(** The digits of the longest prefix of [s] made of radix-[R] digits. *)
Fixpoint digits_prefix (R : Z) (s : string) : list Z :=
  match s with
  | String c s' =>
      match radix_digit R c with
      | Some d => d :: digits_prefix R s'
      | None => []
      end
  | EmptyString => []
  end.

Definition mathInt (R : Z) (ds : list Z) : Z :=
  fold_left (fun acc d => acc * R + d) ds 0.

Definition is_x (c : ascii) : bool := (code_unit c =? 120) || (code_unit c =? 88).

(** [parseInt(string)] with no radix argument (ECMA-262, 19.2.5): leading
    white space is skipped, one sign is read, a [0x] or [0X] prefix selects
    radix 16 and is removed, otherwise the radix is 10; the longest prefix
    of digits of that radix is the number, and [NaN] ([None]) is returned
    when that prefix is empty. *)
Definition parseInt (s : string) : option Z :=
  let S0 := trim_start s in
  let '(sign, S1) :=
    match S0 with
    | String c r =>
        if code_unit c =? 45 then (-1, r)
        else if code_unit c =? 43 then (1, r)
        else (1, S0)
    | EmptyString => (1, S0)
    end in
  let '(R, S2) :=
    match S1 with
    | String c0 (String c1 r) =>
        if (code_unit c0 =? 48) && is_x c1 then (16, r) else (10, S1)
    | _ => (10, S1)
    end in
  match digits_prefix R S2 with
  | [] => None
  | ds => Some (sign * mathInt R ds)
  end.

(** [n === parseInt(id)] for a Number [n] that holds an integer: [NaN] is
    [===] to nothing. *)
Definition num_eq (n : Z) (p : option Z) : bool :=
  match p with
  | Some m => Z.eqb n m
  | None => false
  end.

End JS.
Import JS.

(** ** The bcryptjs interface *)

(** [bcrypt_hash s rounds salt] is [await bcrypt.hash(s, rounds)] when the
    library draws the random salt [salt]; [bcrypt_compare s h] is
    [await bcrypt.compare(s, h)].  [None] is a rejected promise.  The two
    laws are the part of the library's contract the handlers rely on: hashing
    a string with work factor 8 resolves, and comparing a string against a
    hash the library produced resolves. *)
Class Bcrypt : Type := {
  bcrypt_hash : jsval -> Z -> string -> option string;
  bcrypt_compare : jsval -> string -> option bool;
  bcrypt_hash_string :
    forall pw salt, bcrypt_hash (VStr pw) 8 salt <> None;
  bcrypt_compare_hashed :
    forall pw s rounds salt h,
      bcrypt_hash s rounds salt = Some h ->
      bcrypt_compare (VStr pw) h <> None
}.

(** ** The store *)

Module User.
Record t : Type := mk { username : jsval; password : string }.
End User.

Module Task.
Record t : Type := mk {
  id : Z;
  username : jsval;
  task : jsval;
  status : jsval
}.

Definition set_status (v : jsval) (x : t) : t :=
  mk (id x) (username x) (task x) v.
End Task.

Record store : Type := mkStore {
  users : list User.t;
  tasks : list Task.t;
  taskId : Z
}.

(** [let users = []; let tasks = []; let taskId = 1;] *)
Definition init : store := mkStore [] [] 1.

(** ** Responses *)

Inductive body : Type :=
| Text (s : string)
| Json (ts : list Task.t).

Record response : Type := mkResponse { code : Z; payload : body }.

(** What a handler does with the request: it sends a response, or its
    promise rejects before any response is sent.  With [Rejected] a handler
    function returns the store as it is at the rejection; what becomes of
    the process, and so of the store, is said by [serve] below. *)
Inductive outcome : Type :=
| Sent (r : response)
| Rejected.

Definition send (c : Z) (s : string) : outcome := Sent (mkResponse c (Text s)).
Definition json (ts : list Task.t) : outcome := Sent (mkResponse 200 (Json ts)).

Definition status_of (o : outcome) : option Z :=
  match o with
  | Sent r => Some (code r)
  | Rejected => None
  end.

(** ** The handlers *)

(** [users.find(user => user.username === username)] *)
Definition find_user (st : store) (username : jsval) : option User.t :=
  find (fun user => strict_eq (User.username user) username) (users st).

(** [tasks.find(task => task.id === parseInt(id))] *)
Definition find_task (st : store) (id : string) : option Task.t :=
  find (fun task => num_eq (Task.id task) (parseInt id)) (tasks st).

(** The assignment [task.status = status] to the object that [Array.find]
    returned: the first element that satisfies [p] is updated where it
    sits. *)
Fixpoint assign_first (p : Task.t -> bool) (f : Task.t -> Task.t)
    (l : list Task.t) : list Task.t :=
  match l with
  | [] => []
  | x :: l' => if p x then f x :: l' else x :: assign_first p f l'
  end.

Definition statuses : list string := ["backlog"; "inProgress"; "done"; "onAccess"].

Section Handlers.
Context {B : Bcrypt}.

(** [app.post('/register')] *)
Definition post_register (st : store) (username password : jsval)
    (salt : string) : outcome * store :=
  match bcrypt_hash password 8 salt with
  | None => (Rejected, st)
  | Some hashedPassword =>
      match find_user st username with
      | Some _ => (send 400 "User already exists", st)
      | None =>
          let newUser := User.mk username hashedPassword in
          (send 201 "User registered",
           mkStore (users st ++ [newUser]) (tasks st) (taskId st))
      end
  end.

(** [app.post('/login')] *)
Definition post_login (st : store) (username password : jsval)
    : outcome * store :=
  match find_user st username with
  | None => (send 400 "Invalid credentials", st)
  | Some user =>
      match bcrypt_compare password (User.password user) with
      | None => (Rejected, st)
      | Some false => (send 400 "Invalid credentials", st)
      | Some true => (send 200 "Logged in successfully", st)
      end
  end.

(** [{ id: taskId++, username, task, status: 'backlog' }] *)
Definition newTask (st : store) (username task : jsval) : Task.t :=
  Task.mk (taskId st) username task (VStr "backlog").

(** [app.post('/task')] *)
Definition post_task (st : store) (username task : jsval)
    : outcome * store :=
  match find_user st username with
  | None => (send 400 "User not found", st)
  | Some _ =>
      (send 201 "Task added",
       mkStore (users st) (tasks st ++ [newTask st username task])
               (taskId st + 1))
  end.

(** [app.patch('/task/:id')] *)
Definition patch_task (st : store) (id : string) (status : jsval)
    : outcome * store :=
  match find_task st id with
  | None => (send 404 "Task not found", st)
  | Some _ =>
      if negb (includes statuses status)
      then (send 400 "Invalid status", st)
      else
        (send 200 "Task updated",
         mkStore (users st)
                 (assign_first
                    (fun task => num_eq (Task.id task) (parseInt id))
                    (Task.set_status status) (tasks st))
                 (taskId st))
  end.

(** [app.delete('/task/:id')] *)
Definition delete_task (st : store) (id : string) : outcome * store :=
  let initialLength := List.length (tasks st) in
  let tasks' :=
    filter (fun task => negb (num_eq (Task.id task) (parseInt id)))
           (tasks st) in
  let st' := mkStore (users st) tasks' (taskId st) in
  if Nat.eqb (List.length tasks') initialLength
  then (send 404 "Task not found or already deleted", st')
  else (send 200 "Task deleted", st').

(** [app.get('/tasks')].  [username] is [req.query.username]: the query
    parser delivers a string, an array, an object, or [undefined] when the
    parameter is absent ([from_query] below). *)
Definition get_tasks (st : store) (username : jsval) : outcome * store :=
  match find_user st username with
  | None => (send 400 "User not found", st)
  | Some _ =>
      let userTasks :=
        filter (fun task => strict_eq (Task.username task) username)
               (tasks st) in
      (json userTasks, st)
  end.

(** ** Requests and runs of the service *)

Inductive request : Type :=
| Register (username password : jsval) (salt : string)
| Login (username password : jsval)
| CreateTask (username task : jsval)
| UpdateStatus (id : string) (status : jsval)
| DeleteTask (id : string)
| ListTasks (username : jsval).

Definition handle (st : store) (r : request) : outcome * store :=
  match r with
  | Register u p salt => post_register st u p salt
  | Login u p => post_login st u p
  | CreateTask u t => post_task st u t
  | UpdateStatus i s => patch_task st i s
  | DeleteTask i => delete_task st i
  | ListTasks u => get_tasks st u
  end.

(** The store after serving the requests of [tr], in order, from [st]. *)
Definition run (tr : list request) (st : store) : store :=
  fold_left (fun s r => snd (handle s r)) tr st.

(** The id a request hands out: the [id] of the task a successful
    [/task] POST builds. *)
Definition assigned (st : store) (r : request) : list Z :=
  match r with
  | CreateTask u t =>
      match status_of (fst (handle st r)) with
      | Some 201 => [Task.id (newTask st u t)]
      | _ => []
      end
  | _ => []
  end.

(** The ids handed out while serving [tr] from [st], oldest first. *)
Fixpoint assigned_ids (tr : list request) (st : store) : list Z :=
  match tr with
  | [] => []
  | r :: tr' => assigned st r ++ assigned_ids tr' (snd (handle st r))
  end.

(** The number of POST /task requests answered 201 while serving [tr] from
    [st]: read off the responses. *)
Fixpoint creations (tr : list request) (st : store) : nat :=
  match tr with
  | [] => O
  | r :: tr' =>
      Nat.add
        match r, status_of (fst (handle st r)) with
        | CreateTask _ _, Some 201 => 1%nat
        | _, _ => 0%nat
        end
        (creations tr' (snd (handle st r)))
  end.

(** The ids of the tasks that the POST /task requests answered 201 added to
    the task collection while serving [tr] from [st], oldest first: read off
    the stores, as the ids of the tasks that sit in the collection after the
    request beyond the length it had before. *)
Fixpoint stored_ids (tr : list request) (st : store) : list Z :=
  match tr with
  | [] => []
  | r :: tr' =>
      match r, status_of (fst (handle st r)) with
      | CreateTask _ _, Some 201 =>
          map Task.id
              (skipn (List.length (tasks st)) (tasks (snd (handle st r))))
      | _, _ => []
      end ++ stored_ids tr' (snd (handle st r))
  end.

(** The process around the handlers.  The two [async] handlers await bcrypt
    outside any [try], and nothing in [server.js] handles a rejected
    promise: when an awaited promise rejects, no response is sent, the
    rejection is unhandled and the process ends, and with it the store, which
    lives in its memory.  [Down] is the ended process; it answers
    nothing. *)
Inductive service : Type :=
| Up (st : store)
| Down.

Definition serve (s : service) (r : request) : option response * service :=
  match s with
  | Down => (None, Down)
  | Up st =>
      match handle st r with
      | (Sent w, st') => (Some w, Up st')
      | (Rejected, _) => (None, Down)
      end
  end.

Definition serve_all (tr : list request) (s : service) : service :=
  fold_left (fun s r => snd (serve s r)) tr s.

End Handlers.

(** The same request, with the text of a task to create forgotten. *)
Definition blank_request (r : request) : request :=
  match r with
  | CreateTask u _ => CreateTask u VUndefined
  | _ => r
  end.

(** ** Vocabulary of the properties *)

(** The two answers of a login. *)
Definition invalid_credentials : outcome := send 400 "Invalid credentials".
Definition logged_in : outcome := send 200 "Logged in successfully".

(** A user record whose username is exactly the string [u] is held. *)
Definition registered (st : store) (u : string) : Prop :=
  In (VStr u) (map User.username (users st)).

(** [v] is one of the four status labels. *)
Definition allowed (v : jsval) : Prop :=
  exists s, v = VStr s /\ In s statuses.

(** No held task has the id that the path parameter [id] parses to. *)
Definition no_task (st : store) (id : string) : Prop :=
  forall t, In t (tasks st) -> parseInt id <> Some (Task.id t).

(** [selects P l l']: [l'] is made of exactly the elements of [l] that
    satisfy [P], in the order they have in [l]. *)
Inductive selects {A : Type} (P : A -> Prop) : list A -> list A -> Prop :=
| selects_nil : selects P [] []
| selects_keep x l l' : P x -> selects P l l' -> selects P (x :: l) (x :: l')
| selects_drop x l l' : ~ P x -> selects P l l' -> selects P (x :: l) l'.

(** The string [u] is the username of exactly one record of [l]. *)
Definition exactly_one (u : string) (l : list User.t) : Prop :=
  exists l1 x l2,
    l = l1 ++ x :: l2 /\ User.username x = VStr u /\
    ~ In (VStr u) (map User.username l1) /\
    ~ In (VStr u) (map User.username l2).

(** The number of records of [l] whose username is [===] to the string
    [u]. *)
Definition entries (u : string) (l : list User.t) : nat :=
  List.length (filter (fun x => strict_eq (User.username x) (VStr u)) l).

(** Decimal digits, and the number a string of decimal digits denotes. *)
Definition is_digit (c : ascii) : bool :=
  (48 <=? code_unit c) && (code_unit c <=? 57).

Fixpoint all_digits (s : string) : bool :=
  match s with
  | EmptyString => true
  | String c s' => is_digit c && all_digits s'
  end.

Fixpoint no_digit (s : string) : bool :=
  match s with
  | EmptyString => true
  | String c s' => negb (is_digit c) && no_digit s'
  end.

Fixpoint dec_value_from (acc : Z) (s : string) : Z :=
  match s with
  | EmptyString => acc
  | String c s' => dec_value_from (10 * acc + (code_unit c - 48)) s'
  end.

Definition dec_value (s : string) : Z := dec_value_from 0 s.

Definition starts_with_digit (s : string) : bool :=
  match s with
  | String c _ => is_digit c
  | EmptyString => false
  end.

(** The string begins with [0x] or [0X]. *)
Definition hex_prefixed (s : string) : bool :=
  match s with
  | String c0 (String c1 _) => (code_unit c0 =? 48) && is_x c1
  | _ => false
  end.

(** Forgetting the text of tasks: in a task, a store, a response. *)
Definition blank_task (x : Task.t) : Task.t :=
  Task.mk (Task.id x) (Task.username x) VUndefined (Task.status x).

Definition blank (st : store) : store :=
  mkStore (users st) (map blank_task (tasks st)) (taskId st).

Definition blank_outcome (o : outcome) : outcome :=
  match o with
  | Sent (mkResponse c (Json ts)) => Sent (mkResponse c (Json (map blank_task ts)))
  | _ => o
  end.

(** Arrays and objects: the values [===] compares by reference. *)
Definition is_reference (v : jsval) : bool :=
  match v with
  | VArr _ | VObj _ => true
  | _ => false
  end.

Fixpoint all_ws (s : string) : bool :=
  match s with
  | EmptyString => true
  | String c s' => is_ws c && all_ws s'
  end.

(** Hexadecimal digits, and the number a string of them denotes. *)
Definition is_hex (c : ascii) : bool :=
  match digit_val c with
  | Some d => d <? 16
  | None => false
  end.

Fixpoint all_hex (s : string) : bool :=
  match s with
  | EmptyString => true
  | String c s' => is_hex c && all_hex s'
  end.

Definition starts_with_hex (s : string) : bool :=
  match s with
  | String c _ => is_hex c
  | EmptyString => false
  end.

Fixpoint hex_value_from (acc : Z) (s : string) : Z :=
  match s with
  | EmptyString => acc
  | String c s' =>
      hex_value_from
        (16 * acc + match digit_val c with Some d => d | None => 0 end) s'
  end.

Definition hex_value (s : string) : Z := hex_value_from 0 s.

(** The decimal numeral of a Number that holds a natural number, as an id
    is printed in a listing. *)
Definition digit_char (d : Z) : ascii := ascii_of_N (Z.to_N (48 + d)).

Fixpoint decimal_fuel (fuel : nat) (n : Z) : string :=
  match fuel with
  | O => ""
  | S fuel' =>
      append (if n <? 10 then "" else decimal_fuel fuel' (n / 10))
             (String (digit_char (n mod 10)) "")
  end.

Definition decimal (n : Z) : string := decimal_fuel (S (Z.to_nat n)) n.

(** What a task is apart from its status. *)
Definition identity (t : Task.t) : Z * jsval * jsval :=
  (Task.id t, Task.username t, Task.task t).

(** Every held task carries the username of a user record. *)
Definition owned (st : store) : Prop :=
  forall t, In t (tasks st) -> find_user st (Task.username t) <> None.

(** The values a query parameter can have: a string, an array, an object,
    or [undefined]. *)
Definition from_query (v : jsval) : bool :=
  match v with
  | VStr _ | VUndefined | VArr _ | VObj _ => true
  | _ => false
  end.

(** What holds of every store the service can be in. *)
Record wf {B : Bcrypt} (st : store) : Prop := mkWf {
  wf_counter : 1 <= taskId st;
  wf_bound : forall t, In t (tasks st) -> 1 <= Task.id t < taskId st;
  wf_nodup : NoDup (map Task.id (tasks st));
  wf_users : forall u, (entries u (users st) <= 1)%nat;
  wf_hashed :
    forall x, In x (users st) ->
      exists s rounds salt, bcrypt_hash s rounds salt = Some (User.password x);
  wf_status : forall t, In t (tasks st) -> allowed (Task.status t)
}.

(** ** A small instance of the interface, and sample stores

    [demo_bcrypt] keeps the shape of a bcrypt hash (the salt, then the
    digest) without its cryptography: it is what the examples below run
    with. *)

Definition demo_hash (s : jsval) (rounds : Z) (salt : string) : option string :=
  match s with
  | VStr pw => Some ("$2a$08$" ++ salt ++ "." ++ pw)%string
  | _ => None
  end.

Definition demo_compare (s : jsval) (h : string) : option bool :=
  match s with
  | VStr pw =>
      let n := String.length pw in
      Some (String.eqb
              (substring (String.length h - S n) (S n) h)
              ("." ++ pw)%string)
  | _ => None
  end.

Lemma demo_hash_string :
  forall pw salt, demo_hash (VStr pw) 8 salt <> None.
Proof. intros pw salt; simpl; discriminate. Qed.

Lemma demo_compare_hashed :
  forall pw s rounds salt h,
    demo_hash s rounds salt = Some h -> demo_compare (VStr pw) h <> None.
Proof. intros; simpl; discriminate. Qed.

Definition demo_bcrypt : Bcrypt :=
  Build_Bcrypt demo_hash demo_compare demo_hash_string demo_compare_hashed.

(** The end-to-end run of the specification: alice registers, creates
    "buy milk", and marks it done. *)
Definition alice_trace : list request :=
  [ Register (VStr "alice") (VStr "pw1") "salt";
    CreateTask (VStr "alice") (VStr "buy milk");
    UpdateStatus "1" (VStr "done") ].

Definition alice_store : store := @run demo_bcrypt alice_trace init.

(** Alice registered, no task yet. *)
Definition alice_only : store :=
  @run demo_bcrypt [Register (VStr "alice") (VStr "pw1") "salt"] init.

(** Alice with ten tasks, ids 1 to 10. *)
Definition ten_trace : list request :=
  Register (VStr "alice") (VStr "pw1") "salt"
    :: repeat (CreateTask (VStr "alice") (VStr "t")) 10.

Definition ten_store : store := @run demo_bcrypt ten_trace init.

(** A user registered under the number 5, with one task. *)
Definition five_trace : list request :=
  [ Register (VNum 5) (VStr "pw") "salt";
    CreateTask (VNum 5) (VStr "t") ].

Definition five_store : store := @run demo_bcrypt five_trace init.

(** Alice with three tasks, the second one deleted. *)
Definition busy_trace : list request :=
  [ Register (VStr "alice") (VStr "pw1") "salt";
    CreateTask (VStr "alice") (VStr "a");
    CreateTask (VStr "alice") (VStr "b");
    DeleteTask "2";
    CreateTask (VStr "alice") (VStr "c") ].

Definition busy_store : store := @run demo_bcrypt busy_trace init.

(** ** The embedding at work *)

Example parseInt_samples :
  map parseInt ["3abc"; "0x1f"; "0x"; " 42"; "-7"; "+3"; "abc"; ""; "010"] =
  [Some 3; Some 31; None; Some 42; Some (-7); Some 3; None; None; Some 10].
Proof. reflexivity. Qed.

(** Register alice, create "buy milk", mark task 1 done, list. *)
Example end_to_end :
  fst (get_tasks alice_store (VStr "alice")) =
    json [Task.mk 1 (VStr "alice") (VStr "buy milk") (VStr "done")] /\
  taskId alice_store = 2.
Proof. split; reflexivity. Qed.

(** Ids 1, 2, 3 are handed out around the deletion of task 2. *)
Example busy_ids :
  @assigned_ids demo_bcrypt busy_trace init = [1; 2; 3] /\
  map Task.id (tasks busy_store) = [1; 3].
Proof. split; reflexivity. Qed.

(** ** Lemmas on the built-ins *)

Lemma strict_eq_str v s : strict_eq v (VStr s) = true <-> v = VStr s.
Proof.
  destruct v; simpl; split; intros H; try discriminate.
  - apply String.eqb_eq in H; now subst.
  - injection H as ->; apply String.eqb_refl.
Qed.

Lemma num_eq_true n p : num_eq n p = true <-> p = Some n.
Proof.
  destruct p as [m|]; simpl; split; intros H; try discriminate.
  - apply Z.eqb_eq in H; now subst.
  - injection H as ->; apply Z.eqb_refl.
Qed.

Lemma num_eq_false n p : num_eq n p = false <-> p <> Some n.
Proof.
  rewrite <- num_eq_true; destruct (num_eq n p); split; congruence.
Qed.

Lemma includes_allowed v : includes statuses v = true <-> allowed v.
Proof.
  unfold allowed, includes; destruct v; split;
    try discriminate; try (intros (s0 & E & _); discriminate).
  - intros H; exists s; split; [reflexivity|].
    apply existsb_exists in H; destruct H as (x & Hin & E).
    apply String.eqb_eq in E; now subst.
  - intros (s0 & E & Hin); injection E as ->.
    apply existsb_exists; exists s0; split; [exact Hin | apply String.eqb_refl].
Qed.

(** ** Lemmas on the lookups *)

Lemma find_user_none st u :
  find_user st (VStr u) = None <-> ~ registered st u.
Proof.
  unfold find_user, registered; induction (users st) as [|x l IH]; simpl.
  - tauto.
  - destruct (strict_eq (User.username x) (VStr u)) eqn:E.
    + apply strict_eq_str in E; split; [discriminate | tauto].
    + rewrite IH; split; [|tauto].
      intros Hn [Hx|Hl]; [|tauto].
      apply strict_eq_str in Hx; congruence.
Qed.

Lemma find_user_some st u :
  registered st u ->
  exists x, find_user st (VStr u) = Some x /\ In x (users st) /\
            User.username x = VStr u.
Proof.
  intros Hr; destruct (find_user st (VStr u)) as [x|] eqn:E.
  - exists x; split; [reflexivity|].
    apply find_some in E; destruct E as [Hin Heq].
    apply strict_eq_str in Heq; tauto.
  - apply find_user_none in E; contradiction.
Qed.

Lemma find_task_none st id : find_task st id = None <-> no_task st id.
Proof.
  unfold find_task, no_task; induction (tasks st) as [|x l IH]; simpl.
  - split; [intros _ t [] | reflexivity].
  - destruct (num_eq (Task.id x) (parseInt id)) eqn:E.
    + apply num_eq_true in E; split; [discriminate|].
      intros H; exfalso; apply (H x); auto.
    + apply num_eq_false in E; rewrite IH; split.
      * intros H t [<-|Hin]; auto.
      * intros H t Hin; apply H; auto.
Qed.

Lemma filter_selects {A : Type} (P : A -> Prop) (f : A -> bool) (l : list A) :
  (forall x, f x = true <-> P x) -> selects P l (filter f l).
Proof.
  intros Hf; induction l as [|x l IH]; simpl; [constructor|].
  destruct (f x) eqn:E.
  - apply selects_keep; [now apply Hf | exact IH].
  - apply selects_drop; [|exact IH].
    intros Hp; apply Hf in Hp; congruence.
Qed.

Lemma filter_none {A : Type} (f : A -> bool) (l : list A) :
  (forall x, In x l -> f x = false) -> filter f l = [].
Proof.
  induction l as [|x l IH]; simpl; intros H; [reflexivity|].
  rewrite (H x) by auto; apply IH; intros y Hy; apply H; auto.
Qed.

(** ** Creating a task *)

(** C1.  POST /task with a username that no user record carries answers
    400 "User not found" and leaves the store as it was; with a registered
    username it answers 201 and appends the task whose id is the counter's
    current value, whose status is "backlog" and whose username and task are
    the inputs, and the counter grows by one. *)
Theorem post_task_spec (st : store) (u : string) (task : jsval) :
  (~ registered st u ->
   post_task st (VStr u) task = (send 400 "User not found", st)) /\
  (registered st u ->
   post_task st (VStr u) task =
     (send 201 "Task added",
      mkStore (users st)
              (tasks st ++ [Task.mk (taskId st) (VStr u) task (VStr "backlog")])
              (taskId st + 1))).
Proof.
  unfold post_task; split; intros H.
  - apply find_user_none in H; now rewrite H.
  - apply find_user_some in H; destruct H as (x & -> & _); reflexivity.
Qed.

Lemma post_task_spec_witness :
  post_task init (VStr "bob") (VStr "x") = (send 400 "User not found", init) /\
  post_task alice_store (VStr "alice") (VStr "walk") =
    (send 201 "Task added",
     mkStore (users alice_store)
             (tasks alice_store ++
                [Task.mk 2 (VStr "alice") (VStr "walk") (VStr "backlog")])
             3).
Proof.
  split.
  - apply (proj1 (post_task_spec init "bob" (VStr "x"))).
    unfold registered; simpl; tauto.
  - apply (proj2 (post_task_spec alice_store "alice" (VStr "walk"))).
    unfold registered; simpl; auto.
Defined.

(** ** Listing the tasks of a user *)

(** C2.  GET /tasks for a username that no user record carries answers
    400 "User not found"; for a registered username it answers 200 with the
    array of exactly the held tasks whose username is the query, in the order
    of the task collection; a registered user without tasks gets 200 and
    the empty array.  The store is left as it was. *)
Theorem get_tasks_spec (st : store) (u : string) :
  (~ registered st u ->
   get_tasks st (VStr u) = (send 400 "User not found", st)) /\
  (registered st u ->
   exists ts,
     get_tasks st (VStr u) = (Sent (mkResponse 200 (Json ts)), st) /\
     selects (fun t => Task.username t = VStr u) (tasks st) ts) /\
  (registered st u ->
   (forall t, In t (tasks st) -> Task.username t <> VStr u) ->
   get_tasks st (VStr u) = (Sent (mkResponse 200 (Json [])), st)).
Proof.
  unfold get_tasks; repeat split; intros H.
  - apply find_user_none in H; now rewrite H.
  - apply find_user_some in H; destruct H as (x & -> & _).
    eexists; split; [reflexivity|].
    apply filter_selects; intros t; apply strict_eq_str.
  - intros Hno; apply find_user_some in H; destruct H as (x & -> & _).
    unfold json; rewrite filter_none; [reflexivity|].
    intros t Hin; specialize (Hno t Hin).
    destruct (strict_eq (Task.username t) (VStr u)) eqn:E; [|reflexivity].
    apply strict_eq_str in E; contradiction.
Qed.

Lemma get_tasks_spec_witness :
  get_tasks init (VStr "bob") = (send 400 "User not found", init) /\
  (exists ts,
     get_tasks alice_store (VStr "alice") =
       (Sent (mkResponse 200 (Json ts)), alice_store) /\
     selects (fun t => Task.username t = VStr "alice") (tasks alice_store) ts) /\
  get_tasks alice_only (VStr "alice") =
    (Sent (mkResponse 200 (Json [])), alice_only).
Proof.
  split; [|split].
  - apply (proj1 (get_tasks_spec init "bob")).
    unfold registered; simpl; tauto.
  - apply (proj1 (proj2 (get_tasks_spec alice_store "alice"))).
    unfold registered; simpl; auto.
  - apply (proj2 (proj2 (get_tasks_spec alice_only "alice"))).
    + unfold registered; simpl; auto.
    + intros t Hin; vm_compute in Hin; destruct Hin.
Defined.

(** ** Updating the status of a task *)

Lemma patch_task_missing (st : store) (id : string) (status : jsval) :
  no_task st id ->
  patch_task st id status = (send 404 "Task not found", st).
Proof.
  intros H; unfold patch_task.
  apply find_task_none in H; now rewrite H.
Qed.

(** C4.  PATCH /task/:id for an id that no held task has answers
    404 "Task not found" whatever the status in the body is, one of the four
    labels or not, and leaves the store as it was: the lookup of the task is
    decided before the status is looked at, so the answer is never
    400 "Invalid status". *)
Theorem patch_task_not_found (st : store) (id : string) :
  no_task st id ->
  forall status : jsval,
    patch_task st id status = (send 404 "Task not found", st) /\
    fst (patch_task st id status) <> send 400 "Invalid status".
Proof.
  intros H status.
  rewrite (patch_task_missing st id status H); split; [reflexivity|].
  simpl; discriminate.
Qed.

Lemma patch_task_not_found_witness :
  no_task alice_store "7" /\
  ~ allowed (VStr "bogus") /\
  patch_task alice_store "7" (VStr "bogus") =
    (send 404 "Task not found", alice_store).
Proof.
  assert (H : no_task alice_store "7").
  { intros t Hin; vm_compute in Hin; destruct Hin as [<-|[]].
    vm_compute; discriminate. }
  split; [exact H|split].
  - intros Ha; apply includes_allowed in Ha; vm_compute in Ha; discriminate.
  - apply (proj1 (patch_task_not_found alice_store "7" H (VStr "bogus"))).
Defined.

(** ** What every reachable store satisfies *)

Lemma run_snoc {B : Bcrypt} tr r st :
  run (tr ++ [r]) st = snd (handle (run tr st) r).
Proof. unfold run; now rewrite fold_left_app. Qed.

Lemma run_app {B : Bcrypt} tr1 tr2 st :
  run (tr1 ++ tr2) st = run tr2 (run tr1 st).
Proof. unfold run; now rewrite fold_left_app. Qed.

Lemma entries_app u l l' :
  entries u (l ++ l') = (entries u l + entries u l')%nat.
Proof. unfold entries; now rewrite filter_app, length_app. Qed.

Lemma entries_zero u l :
  entries u l = 0%nat <-> ~ In (VStr u) (map User.username l).
Proof.
  unfold entries; induction l as [|x l IH]; simpl; [tauto|].
  destruct (strict_eq (User.username x) (VStr u)) eqn:E; simpl.
  - apply strict_eq_str in E; split; [discriminate | tauto].
  - rewrite IH; split; [|tauto].
    intros Hn [Hx|Hl]; [|tauto].
    apply strict_eq_str in Hx; congruence.
Qed.

Lemma find_user_none_entries st v u :
  find_user st v = None -> strict_eq v (VStr u) = true ->
  entries u (users st) = 0%nat.
Proof.
  intros Hf Hv; apply strict_eq_str in Hv; subst v.
  apply entries_zero; now apply find_user_none.
Qed.

Lemma assign_first_ids p v l :
  map Task.id (assign_first p (Task.set_status v) l) = map Task.id l.
Proof.
  induction l as [|x l IH]; simpl; [reflexivity|].
  destruct (p x); simpl; [reflexivity | now rewrite IH].
Qed.

Lemma assign_first_In p v l t :
  In t (assign_first p (Task.set_status v) l) ->
  In t l \/ exists x, In x l /\ t = Task.set_status v x.
Proof.
  induction l as [|x l IH]; simpl; [tauto|].
  destruct (p x); simpl.
  - intros [<-|H]; [right; exists x; auto | auto].
  - intros [<-|H]; [auto|].
    destruct (IH H) as [H1|(y & Hy & ->)]; [auto|].
    right; exists y; auto.
Qed.

Lemma NoDup_map_filter {A C : Type} (f : A -> C) (p : A -> bool) l :
  NoDup (map f l) -> NoDup (map f (filter p l)).
Proof.
  induction l as [|x l IH]; simpl; intros H; [constructor|].
  inversion H as [|? ? Hx Hl]; subst.
  destruct (p x); simpl; [|auto].
  constructor; [|auto].
  intros Hin; apply Hx.
  apply in_map_iff in Hin; destruct Hin as (y & <- & Hy).
  apply filter_In in Hy; apply in_map; tauto.
Qed.

Lemma init_wf {B : Bcrypt} : wf init.
Proof.
  constructor; simpl; try tauto; try lia.
  - constructor.
  - intros u; unfold entries; simpl; lia.
Qed.

Lemma post_register_wf {B : Bcrypt} st u p salt :
  wf st -> wf (snd (post_register st u p salt)).
Proof.
  intros W; unfold post_register.
  destruct (bcrypt_hash p 8 salt) as [h|] eqn:Eh; [|exact W].
  destruct (find_user st u) eqn:Ef; [exact W|].
  destruct W; constructor; simpl; auto.
  - intros u0; rewrite entries_app.
    unfold entries at 2; simpl.
    destruct (strict_eq u (VStr u0)) eqn:E; simpl.
    + rewrite (find_user_none_entries st u u0 Ef E); lia.
    + specialize (wf_users0 u0); lia.
  - intros x Hin; apply in_app_or in Hin; destruct Hin as [Hin|[<-|[]]]; auto.
    simpl; eauto.
Qed.

Lemma post_login_store {B : Bcrypt} st u p : snd (post_login st u p) = st.
Proof.
  unfold post_login; destruct (find_user st u); [|reflexivity].
  destruct (bcrypt_compare p _) as [[|]|]; reflexivity.
Qed.

Lemma allowed_backlog : allowed (VStr "backlog").
Proof. exists "backlog"; simpl; auto. Qed.

Lemma post_task_wf {B : Bcrypt} st u t :
  wf st -> wf (snd (post_task st u t)).
Proof.
  intros W; unfold post_task.
  destruct (find_user st u); [|exact W].
  destruct W; constructor; simpl; auto; try lia.
  - intros x Hin; apply in_app_or in Hin; destruct Hin as [Hin|[<-|[]]].
    + specialize (wf_bound0 x Hin); lia.
    + simpl; lia.
  - rewrite map_app; apply NoDup_app; auto.
    + simpl; constructor; [tauto | constructor].
    + intros a Ha [<-|[]].
      apply in_map_iff in Ha; destruct Ha as (x & E & Hx).
      simpl in E; specialize (wf_bound0 x Hx); lia.
  - intros x Hin; apply in_app_or in Hin; destruct Hin as [Hin|[<-|[]]]; auto.
    apply allowed_backlog.
Qed.

Lemma patch_task_wf {B : Bcrypt} st id v :
  wf st -> wf (snd (patch_task st id v)).
Proof.
  intros W; unfold patch_task.
  destruct (find_task st id) as [found|]; [|exact W].
  destruct (includes statuses v) eqn:Ev; simpl; [|exact W].
  apply includes_allowed in Ev.
  destruct W; constructor; simpl; auto.
  - intros t Hin; apply assign_first_In in Hin.
    destruct Hin as [Hin|(x & Hx & ->)]; auto.
    apply (wf_bound0 x Hx).
  - now rewrite assign_first_ids.
  - intros t Hin; apply assign_first_In in Hin.
    destruct Hin as [Hin|(x & Hx & ->)]; auto.
Qed.

Lemma delete_task_wf {B : Bcrypt} st id :
  wf st -> wf (snd (delete_task st id)).
Proof.
  intros W; unfold delete_task.
  match goal with |- context [if ?c then _ else _] => destruct c end;
    destruct W; constructor; simpl; auto;
    try (intros t Hin; apply filter_In in Hin; destruct Hin; auto);
    now apply NoDup_map_filter.
Qed.

Lemma get_tasks_store st u : snd (get_tasks st u) = st.
Proof. unfold get_tasks; destruct (find_user st u); reflexivity. Qed.

Lemma handle_wf {B : Bcrypt} st r : wf st -> wf (snd (handle st r)).
Proof.
  intros W; destruct r; simpl.
  - now apply post_register_wf.
  - now rewrite post_login_store.
  - now apply post_task_wf.
  - now apply patch_task_wf.
  - now apply delete_task_wf.
  - now rewrite get_tasks_store.
Qed.

Lemma run_wf_from {B : Bcrypt} tr st : wf st -> wf (run tr st).
Proof.
  revert st; induction tr as [|r tr IH]; intros st W; [exact W|].
  apply (IH (snd (handle st r))); now apply handle_wf.
Qed.

Lemma run_wf {B : Bcrypt} tr : wf (run tr init).
Proof. apply run_wf_from, init_wf. Qed.

(** ** Locating one task in a collection without repeated ids *)

Lemma split_unique l t :
  NoDup (map Task.id l) -> In t l ->
  exists l1 l2,
    l = l1 ++ t :: l2 /\
    forall x, In x (l1 ++ l2) -> Task.id x <> Task.id t.
Proof.
  intros Hnd Hin; apply in_split in Hin; destruct Hin as (l1 & l2 & ->).
  exists l1, l2; split; [reflexivity|].
  rewrite map_app in Hnd; simpl in Hnd.
  apply NoDup_remove_2 in Hnd.
  intros x Hx E; apply Hnd; rewrite <- map_app, <- E.
  now apply in_map.
Qed.

Lemma assign_first_split p f l1 t l2 :
  (forall x, In x l1 -> p x = false) -> p t = true ->
  assign_first p f (l1 ++ t :: l2) = l1 ++ f t :: l2.
Proof.
  intros H1 Ht; induction l1 as [|x l1 IH]; simpl.
  - now rewrite Ht.
  - rewrite (H1 x) by (simpl; auto).
    f_equal; apply IH; intros y Hy; apply H1; simpl; auto.
Qed.

Lemma filter_all {A : Type} (f : A -> bool) (l : list A) :
  (forall x, In x l -> f x = true) -> filter f l = l.
Proof.
  induction l as [|x l IH]; simpl; intros H; [reflexivity|].
  rewrite (H x) by auto; f_equal; apply IH; intros y Hy; apply H; auto.
Qed.

Lemma filter_split {A : Type} (f : A -> bool) l1 (t : A) l2 :
  (forall x, In x (l1 ++ l2) -> f x = true) -> f t = false ->
  filter f (l1 ++ t :: l2) = l1 ++ l2.
Proof.
  intros H Ht; rewrite filter_app; simpl; rewrite Ht.
  rewrite <- filter_app; now apply filter_all.
Qed.

Lemma find_task_found st id t :
  In t (tasks st) -> parseInt id = Some (Task.id t) ->
  find_task st id <> None.
Proof.
  intros Hin Hp Hn; apply find_task_none in Hn.
  exact (Hn t Hin Hp).
Qed.

Lemma store_eta st : mkStore (users st) (tasks st) (taskId st) = st.
Proof. now destruct st. Qed.

(** C5.  In a store the service can be in, PATCH /task/:id for the id of a
    held task [t]: with a status that is not one of the four labels it
    answers 400 "Invalid status" and leaves the store, the task's status
    with it, as it was; with one of the four labels it answers 200 and the
    store differs in the status of [t] alone, which is the supplied value. *)
Theorem patch_task_spec {B : Bcrypt} (tr : list request) (id : string)
    (v : jsval) (t : Task.t) :
  let st := run tr init in
  In t (tasks st) ->
  parseInt id = Some (Task.id t) ->
  (~ allowed v -> patch_task st id v = (send 400 "Invalid status", st)) /\
  (allowed v ->
   exists l1 l2,
     tasks st = l1 ++ t :: l2 /\
     patch_task st id v =
       (send 200 "Task updated",
        mkStore (users st)
                (l1 ++ Task.mk (Task.id t) (Task.username t) (Task.task t) v
                    :: l2)
                (taskId st))).
Proof.
  intros st Hin Hp.
  pose proof (find_task_found st id t Hin Hp) as Hf.
  unfold patch_task.
  destruct (find_task st id) as [found|]; [clear Hf | congruence].
  split; intros Hv.
  - destruct (includes statuses v) eqn:E; [|reflexivity].
    apply includes_allowed in E; contradiction.
  - apply includes_allowed in Hv; rewrite Hv; simpl.
    destruct (split_unique (tasks st) t (wf_nodup _ (run_wf tr)) Hin)
      as (l1 & l2 & El & Hother).
    exists l1, l2; split; [exact El|].
    rewrite El.
    rewrite assign_first_split; [reflexivity | | ].
    + intros x Hx; apply num_eq_false; rewrite Hp.
      intros E; injection E as E.
      apply (Hother x); [apply in_or_app; auto | congruence].
    + apply num_eq_true; exact Hp.
Qed.

Lemma patch_task_spec_witness :
  In (Task.mk 3 (VStr "alice") (VStr "c") (VStr "backlog")) (tasks busy_store)
  /\ parseInt "3" = Some 3
  /\ patch_task busy_store "3" (VStr "finished") =
       (send 400 "Invalid status", busy_store)
  /\ exists l1 l2,
       tasks busy_store =
         l1 ++ Task.mk 3 (VStr "alice") (VStr "c") (VStr "backlog") :: l2 /\
       patch_task busy_store "3" (VStr "done") =
         (send 200 "Task updated",
          mkStore (users busy_store)
                  (l1 ++ Task.mk 3 (VStr "alice") (VStr "c") (VStr "done")
                      :: l2)
                  (taskId busy_store)).
Proof.
  assert (Hin : In (Task.mk 3 (VStr "alice") (VStr "c") (VStr "backlog"))
                   (tasks (@run demo_bcrypt busy_trace init)))
    by (vm_compute; auto).
  assert (Hp : parseInt "3" =
               Some (Task.id (Task.mk 3 (VStr "alice") (VStr "c")
                                      (VStr "backlog"))))
    by reflexivity.
  split; [exact Hin | split; [reflexivity | split]].
  - apply (proj1 (@patch_task_spec demo_bcrypt busy_trace "3"
                    (VStr "finished") _ Hin Hp)).
    intros Ha; apply includes_allowed in Ha; vm_compute in Ha; discriminate.
  - apply (proj2 (@patch_task_spec demo_bcrypt busy_trace "3"
                    (VStr "done") _ Hin Hp)).
    apply includes_allowed; reflexivity.
Defined.

(** ** Deleting a task *)

Lemma delete_task_missing st id :
  no_task st id ->
  delete_task st id = (send 404 "Task not found or already deleted", st).
Proof.
  intros H; unfold delete_task.
  rewrite filter_all.
  - now rewrite Nat.eqb_refl, store_eta.
  - intros x Hx; apply negb_true_iff, num_eq_false.
    intros E; exact (H x Hx E).
Qed.

Lemma delete_task_split st id l1 t l2 :
  tasks st = l1 ++ t :: l2 ->
  (forall x, In x (l1 ++ l2) -> Task.id x <> Task.id t) ->
  parseInt id = Some (Task.id t) ->
  delete_task st id =
    (send 200 "Task deleted", mkStore (users st) (l1 ++ l2) (taskId st)).
Proof.
  intros El Hother Hp; unfold delete_task; rewrite El.
  rewrite filter_split.
  - replace (Nat.eqb _ _) with false; [reflexivity|].
    symmetry; apply Nat.eqb_neq.
    rewrite !length_app; simpl; lia.
  - intros x Hx; apply negb_true_iff, num_eq_false; rewrite Hp.
    intros E; injection E as E; apply (Hother x Hx); congruence.
  - apply negb_false_iff, num_eq_true; exact Hp.
Qed.

(** C6.  In a store the service can be in, DELETE /task/:id answers
    404 exactly when no held task has the id, and then the store is as it
    was; when a held task [t] has the id it answers 200 and the store
    differs by the removal of [t] alone, so that the same request served
    again answers 404. *)
Theorem delete_task_spec {B : Bcrypt} (tr : list request) (id : string) :
  let st := run tr init in
  (no_task st id ->
   delete_task st id = (send 404 "Task not found or already deleted", st)) /\
  (forall t, In t (tasks st) -> parseInt id = Some (Task.id t) ->
   exists l1 l2,
     tasks st = l1 ++ t :: l2 /\
     delete_task st id =
       (send 200 "Task deleted", mkStore (users st) (l1 ++ l2) (taskId st)) /\
     delete_task (snd (delete_task st id)) id =
       (send 404 "Task not found or already deleted",
        snd (delete_task st id))) /\
  (fst (delete_task st id) = send 404 "Task not found or already deleted"
   <-> no_task st id).
Proof.
  intros st.
  assert (Hfound : forall t, In t (tasks st) ->
            parseInt id = Some (Task.id t) ->
            exists l1 l2,
              tasks st = l1 ++ t :: l2 /\
              (forall x, In x (l1 ++ l2) -> Task.id x <> Task.id t) /\
              delete_task st id =
                (send 200 "Task deleted",
                 mkStore (users st) (l1 ++ l2) (taskId st))).
  { intros t Hin Hp.
    destruct (split_unique (tasks st) t (wf_nodup _ (run_wf tr)) Hin)
      as (l1 & l2 & El & Hother).
    exists l1, l2; repeat split; auto.
    now apply delete_task_split with (t := t). }
  split; [apply delete_task_missing | split].
  - intros t Hin Hp.
    destruct (Hfound t Hin Hp) as (l1 & l2 & El & Hother & Hd).
    exists l1, l2; repeat split; auto.
    rewrite Hd; simpl.
    apply delete_task_missing.
    intros x Hx E; simpl in Hx.
    apply (Hother x Hx); congruence.
  - split; [|intros H; now rewrite delete_task_missing].
    intros H404.
    destruct (find_task st id) as [t|] eqn:Ef; [|now apply find_task_none].
    apply find_some in Ef; destruct Ef as [Hin Hm].
    apply num_eq_true in Hm.
    destruct (Hfound t Hin Hm) as (l1 & l2 & _ & _ & Hd).
    rewrite Hd in H404; discriminate.
Qed.

Lemma delete_task_spec_witness :
  (no_task busy_store "2" /\
   delete_task busy_store "2" =
     (send 404 "Task not found or already deleted", busy_store)) /\
  (In (Task.mk 3 (VStr "alice") (VStr "c") (VStr "backlog"))
      (tasks busy_store) /\
   parseInt "3" = Some 3 /\
   exists l1 l2,
     tasks busy_store =
       l1 ++ Task.mk 3 (VStr "alice") (VStr "c") (VStr "backlog") :: l2 /\
     delete_task busy_store "3" =
       (send 200 "Task deleted",
        mkStore (users busy_store) (l1 ++ l2) (taskId busy_store)) /\
     delete_task (snd (delete_task busy_store "3")) "3" =
       (send 404 "Task not found or already deleted",
        snd (delete_task busy_store "3"))).
Proof.
  assert (Hno : no_task (@run demo_bcrypt busy_trace init) "2").
  { intros t Hin; vm_compute in Hin.
    destruct Hin as [<-|[<-|[]]]; vm_compute; discriminate. }
  assert (Hin : In (Task.mk 3 (VStr "alice") (VStr "c") (VStr "backlog"))
                   (tasks (@run demo_bcrypt busy_trace init)))
    by (vm_compute; auto).
  split; [split; [exact Hno|] | split; [exact Hin | split; [reflexivity|]]].
  - apply (proj1 (@delete_task_spec demo_bcrypt busy_trace "2") Hno).
  - apply (proj1 (proj2 (@delete_task_spec demo_bcrypt busy_trace "3"))
             _ Hin eq_refl).
Defined.

(** ** Registration *)

Lemma entries_one u l : entries u l = 1%nat -> exactly_one u l.
Proof.
  unfold exactly_one; induction l as [|x l IH]; [discriminate|].
  unfold entries; simpl.
  destruct (strict_eq (User.username x) (VStr u)) eqn:E; simpl; intros H.
  - exists [], x, l; simpl; repeat split; try tauto.
    + now apply strict_eq_str.
    + apply entries_zero; unfold entries; lia.
  - destruct (IH H) as (l1 & y & l2 & -> & Hy & H1 & H2).
    exists (x :: l1), y, l2; simpl; repeat split; auto.
    intros [Hx|Hx]; [|tauto].
    apply strict_eq_str in Hx; congruence.
Qed.

Lemma entries_unique u l x y :
  (entries u l <= 1)%nat -> In x l -> In y l ->
  User.username x = VStr u -> User.username y = VStr u -> x = y.
Proof.
  induction l as [|z l IH]; [intros _ []|].
  unfold entries; simpl.
  destruct (strict_eq (User.username z) (VStr u)) eqn:E; simpl;
    intros Hle Hx Hy Ux Uy.
  - assert (Hz : ~ In (VStr u) (map User.username l))
      by (apply entries_zero; unfold entries; lia).
    destruct Hx as [<-|Hx]; destruct Hy as [<-|Hy]; auto; exfalso; apply Hz.
    + rewrite <- Uy; now apply in_map.
    + rewrite <- Ux; now apply in_map.
    + rewrite <- Ux; now apply in_map.
  - destruct Hx as [<-|Hx]; [apply strict_eq_str in Ux; congruence|].
    destruct Hy as [<-|Hy]; [apply strict_eq_str in Uy; congruence|].
    now apply IH.
Qed.

Lemma registered_entries {B : Bcrypt} st u :
  wf st -> registered st u -> entries u (users st) = 1%nat.
Proof.
  intros W Hr.
  pose proof (wf_users _ W u) as Hle.
  destruct (entries u (users st)) as [|[|n]] eqn:E; [|reflexivity|lia].
  apply entries_zero in E; contradiction.
Qed.

Lemma post_register_dup {B : Bcrypt} st u pw salt :
  registered st u ->
  post_register st (VStr u) (VStr pw) salt =
    (send 400 "User already exists", st).
Proof.
  intros Hr; unfold post_register.
  destruct (bcrypt_hash (VStr pw) 8 salt) eqn:Eh;
    [|now apply bcrypt_hash_string in Eh].
  apply find_user_some in Hr; destruct Hr as (x & -> & _); reflexivity.
Qed.

Lemma post_register_fresh {B : Bcrypt} st u pw salt :
  ~ registered st u ->
  exists h,
    bcrypt_hash (VStr pw) 8 salt = Some h /\
    post_register st (VStr u) (VStr pw) salt =
      (send 201 "User registered",
       mkStore (users st ++ [User.mk (VStr u) h]) (tasks st) (taskId st)).
Proof.
  intros Hr; unfold post_register.
  destruct (bcrypt_hash (VStr pw) 8 salt) as [h|] eqn:Eh;
    [|now apply bcrypt_hash_string in Eh].
  exists h; split; [reflexivity|].
  apply find_user_none in Hr; now rewrite Hr.
Qed.

Lemma post_register_registers {B : Bcrypt} st u pw salt :
  registered (snd (post_register st (VStr u) (VStr pw) salt)) u.
Proof.
  destruct (find_user st (VStr u)) eqn:Ef.
  - assert (Hr : registered st u).
    { unfold registered.
      apply find_some in Ef; destruct Ef as [Hin E].
      apply strict_eq_str in E; rewrite <- E; now apply in_map. }
    now rewrite post_register_dup.
  - apply find_user_none in Ef.
    destruct (post_register_fresh st u pw salt Ef) as (h & _ & ->).
    unfold registered; simpl; rewrite map_app; apply in_or_app; simpl; auto.
Qed.

(** C7.  In a store the service can be in, POST /register with a string
    username that a user record already carries answers
    400 "User already exists" and leaves the store as it was; with a fresh
    username it answers 201 and appends one record, made of the username and
    of what [bcrypt.hash] returned for the password with work factor 8 (the
    password itself is not stored); and after two attempts with one username,
    whatever the passwords, the second is answered 400 and the collection
    holds exactly one record for that username. *)
Theorem post_register_spec {B : Bcrypt} (tr : list request)
    (u pw salt : string) :
  let st := run tr init in
  (registered st u ->
   post_register st (VStr u) (VStr pw) salt =
     (send 400 "User already exists", st)) /\
  (~ registered st u ->
   exists h,
     bcrypt_hash (VStr pw) 8 salt = Some h /\
     post_register st (VStr u) (VStr pw) salt =
       (send 201 "User registered",
        mkStore (users st ++ [User.mk (VStr u) h]) (tasks st) (taskId st))) /\
  (forall pw' salt',
     let st1 := snd (post_register st (VStr u) (VStr pw) salt) in
     post_register st1 (VStr u) (VStr pw') salt' =
       (send 400 "User already exists", st1) /\
     exactly_one u (users st1)).
Proof.
  intros st; split; [apply post_register_dup | split].
  - apply post_register_fresh.
  - intros pw' salt' st1.
    assert (Hr : registered st1 u) by apply post_register_registers.
    split; [now apply post_register_dup|].
    apply entries_one, registered_entries; [|exact Hr].
    apply post_register_wf, run_wf.
Qed.

Lemma post_register_spec_witness :
  (registered alice_store "alice" /\
   @post_register demo_bcrypt alice_store (VStr "alice") (VStr "other") "nacl" =
     (send 400 "User already exists", alice_store)) /\
  (~ registered alice_store "bob" /\
   exists h,
     @bcrypt_hash demo_bcrypt (VStr "pw2") 8 "nacl" = Some h /\
     @post_register demo_bcrypt alice_store (VStr "bob") (VStr "pw2") "nacl" =
       (send 201 "User registered",
        mkStore (users alice_store ++ [User.mk (VStr "bob") h])
                (tasks alice_store) (taskId alice_store))).
Proof.
  split; split.
  - unfold registered; vm_compute; auto.
  - apply (proj1 (@post_register_spec demo_bcrypt alice_trace
                    "alice" "other" "nacl")).
    unfold registered; vm_compute; auto.
  - unfold registered; vm_compute; intros [H|[]]; discriminate.
  - apply (proj1 (proj2 (@post_register_spec demo_bcrypt alice_trace
                           "bob" "pw2" "nacl"))).
    unfold registered; vm_compute; intros [H|[]]; discriminate.
Defined.

(** ** Login *)

(** The record [Array.find] returns for a string username. *)
Lemma find_user_found st u x :
  find_user st (VStr u) = Some x ->
  In x (users st) /\ User.username x = VStr u.
Proof.
  intros Ef; apply find_some in Ef; destruct Ef as [Hin E].
  apply strict_eq_str in E; auto.
Qed.

Lemma post_login_cases {B : Bcrypt} st u pw :
  wf st ->
  (find_user st (VStr u) = None /\
   fst (post_login st (VStr u) (VStr pw)) = invalid_credentials) \/
  (exists x b,
     find_user st (VStr u) = Some x /\
     bcrypt_compare (VStr pw) (User.password x) = Some b /\
     fst (post_login st (VStr u) (VStr pw)) =
       if b then logged_in else invalid_credentials).
Proof.
  intros W; unfold post_login.
  destruct (find_user st (VStr u)) as [x|] eqn:Ef; [right | now left].
  destruct (find_user_found st u x Ef) as [Hin _].
  destruct (wf_hashed _ W x Hin) as (s & rounds & salt & Eh).
  pose proof (bcrypt_compare_hashed pw s rounds salt _ Eh) as Hc.
  destruct (bcrypt_compare (VStr pw) (User.password x)) as [b|] eqn:Ec;
    [|congruence].
  exists x, b; split; [reflexivity | split; [exact Ec|]].
  destruct b; reflexivity.
Qed.

(** C8.  In a store the service can be in, POST /login with a string
    username and a string password leaves the store as it was and answers
    either 200 or 400 "Invalid credentials"; it answers the latter exactly
    when no user record carries the username or [bcrypt.compare] of the
    password with the stored hash of that user is false; and two failed
    logins, whatever their cause, the store and the credentials, get the
    same response. *)
Theorem post_login_spec {B : Bcrypt} (tr : list request) (u pw : string) :
  let st := run tr init in
  snd (post_login st (VStr u) (VStr pw)) = st /\
  (fst (post_login st (VStr u) (VStr pw)) = logged_in \/
   fst (post_login st (VStr u) (VStr pw)) = invalid_credentials) /\
  (fst (post_login st (VStr u) (VStr pw)) = invalid_credentials <->
   ~ registered st u \/
   exists x, In x (users st) /\ User.username x = VStr u /\
             bcrypt_compare (VStr pw) (User.password x) = Some false) /\
  (forall tr' u' pw',
     let st' := run tr' init in
     fst (post_login st (VStr u) (VStr pw)) <> logged_in ->
     fst (post_login st' (VStr u') (VStr pw')) <> logged_in ->
     fst (post_login st (VStr u) (VStr pw)) =
     fst (post_login st' (VStr u') (VStr pw'))).
Proof.
  intros st.
  assert (Hdich : forall tr0 u0 pw0,
            fst (post_login (run tr0 init) (VStr u0) (VStr pw0)) = logged_in \/
            fst (post_login (run tr0 init) (VStr u0) (VStr pw0)) =
              invalid_credentials).
  { intros tr0 u0 pw0.
    destruct (post_login_cases (run tr0 init) u0 pw0 (run_wf tr0))
      as [[_ ->]|(x & b & _ & _ & ->)]; [now right|].
    destruct b; auto. }
  split; [apply post_login_store | split; [apply Hdich | split]].
  - destruct (post_login_cases st u pw (run_wf tr))
      as [[Ef ->]|(x & b & Ef & Ec & ->)].
    + apply find_user_none in Ef; tauto.
    + destruct (find_user_found st u x Ef) as [Hin Ux].
      destruct b; split.
      * discriminate.
      * intros [Hn|(y & Hy & Uy & Ecy)].
        -- exfalso; apply Hn; unfold registered.
           rewrite <- Ux; now apply in_map.
        -- rewrite (entries_unique u (users st) x y
                      (wf_users _ (run_wf tr) u) Hin Hy Ux Uy) in Ec.
           congruence.
      * intros _; right; exists x; auto.
      * reflexivity.
  - intros tr' u' pw' st' H1 H2.
    destruct (Hdich tr u pw) as [E1|E1]; [contradiction|].
    destruct (Hdich tr' u' pw') as [E2|E2]; [contradiction|].
    fold st in E1; fold st' in E2; congruence.
Qed.

Lemma post_login_spec_witness :
  @post_login demo_bcrypt alice_store (VStr "alice") (VStr "pw1") =
    (logged_in, alice_store) /\
  @post_login demo_bcrypt alice_store (VStr "alice") (VStr "wrong") =
    (invalid_credentials, alice_store) /\
  @post_login demo_bcrypt alice_store (VStr "bob") (VStr "pw1") =
    (invalid_credentials, alice_store) /\
  fst (@post_login demo_bcrypt alice_store (VStr "alice") (VStr "wrong")) =
  fst (@post_login demo_bcrypt init (VStr "bob") (VStr "pw1")).
Proof.
  split; [reflexivity | split; [reflexivity | split; [reflexivity|]]].
  apply (proj2 (proj2 (proj2
           (@post_login_spec demo_bcrypt alice_trace "alice" "wrong")))
           [] "bob" "pw1");
    vm_compute; discriminate.
Defined.

(** ** The counter and the ids it hands out *)

Lemma handle_counter {B : Bcrypt} st r :
  taskId (snd (handle st r)) =
  taskId st + Z.of_nat (List.length (assigned st r)).
Proof.
  destruct r; unfold assigned; simpl.
  - unfold post_register.
    destruct (bcrypt_hash _ _ _); [|simpl; lia].
    destruct (find_user st username); simpl; lia.
  - rewrite post_login_store; lia.
  - unfold post_task; destruct (find_user st username); simpl; lia.
  - unfold patch_task; destruct (find_task st id); [|simpl; lia].
    destruct (negb _); simpl; lia.
  - unfold delete_task.
    match goal with |- context [if ?c then _ else _] => destruct c end;
      simpl; lia.
  - rewrite get_tasks_store; lia.
Qed.

Lemma assigned_cases {B : Bcrypt} st r :
  assigned st r = [] \/ assigned st r = [taskId st].
Proof.
  destruct r; simpl; auto.
  destruct (status_of _) as [[|[]|]|]; auto.
  repeat (match goal with p : positive |- _ => destruct p end; auto).
Qed.

Lemma run_counter_mono {B : Bcrypt} tr st : taskId st <= taskId (run tr st).
Proof.
  revert st; induction tr as [|r tr IH]; intros st; simpl; [lia|].
  specialize (IH (snd (handle st r))).
  rewrite handle_counter in IH; lia.
Qed.

Lemma assigned_ids_from {B : Bcrypt} tr st :
  assigned_ids tr st =
    map (fun k => taskId st + Z.of_nat k)
        (seq 0 (List.length (assigned_ids tr st))) /\
  taskId (run tr st) =
    taskId st + Z.of_nat (List.length (assigned_ids tr st)).
Proof.
  revert st; induction tr as [|r tr IH]; intros st; simpl.
  - split; [reflexivity | lia].
  - destruct (IH (snd (handle st r))) as [IHa IHc].
    rewrite IHc, handle_counter, length_app.
    split; [|lia].
    rewrite IHa at 1; rewrite handle_counter.
    destruct (assigned_cases st r) as [-> | ->]; simpl.
    + apply map_ext; intros k; lia.
    + rewrite Z.add_0_r; apply (f_equal (cons (taskId st))).
      rewrite <- seq_shift, map_map.
      apply map_ext; intros k; lia.
Qed.

Lemma seq_increasing a n :
  forall i j, (i < j < n)%nat ->
    nth i (map Z.of_nat (seq a n)) 0 < nth j (map Z.of_nat (seq a n)) 0.
Proof.
  intros i j H.
  change 0 with (Z.of_nat 0).
  rewrite !map_nth, !seq_nth by lia; lia.
Qed.

(** ** The path parameter and [parseInt] *)

(** Facts on single code units are settled by running through the 256 of
    them. *)
Ltac each_code_unit c :=
  destruct c as [[] [] [] [] [] [] [] []]; vm_compute;
  first [reflexivity | intros H; first [reflexivity | discriminate H]].

Lemma digit_not_ws c : is_digit c = true -> is_ws c = false.
Proof. each_code_unit c. Qed.

Lemma digit_not_minus c : is_digit c = true -> (code_unit c =? 45) = false.
Proof. each_code_unit c. Qed.

Lemma digit_not_plus c : is_digit c = true -> (code_unit c =? 43) = false.
Proof. each_code_unit c. Qed.

Lemma digit_not_x c : is_digit c = true -> is_x c = false.
Proof. each_code_unit c. Qed.

Lemma radix_digit_10 c :
  radix_digit 10 c = if is_digit c then Some (code_unit c - 48) else None.
Proof. each_code_unit c. Qed.

Lemma append_nil_r (s : string) : (s ++ "")%string = s.
Proof. induction s as [|c s IH]; simpl; [reflexivity | now rewrite IH]. Qed.

Lemma digits_prefix_value d rest acc :
  all_digits d = true -> starts_with_digit rest = false ->
  fold_left (fun a x => a * 10 + x) (digits_prefix 10 (d ++ rest)%string) acc
  = dec_value_from acc d.
Proof.
  intros Hd Hr; revert acc; induction d as [|c d IH]; intros acc;
    cbn [append digits_prefix dec_value_from].
  - destruct rest as [|c r]; cbn [digits_prefix]; [reflexivity|].
    simpl in Hr; now rewrite radix_digit_10, Hr.
  - simpl in Hd; apply andb_true_iff in Hd; destruct Hd as [Hc Hd].
    rewrite radix_digit_10, Hc; cbn [fold_left].
    rewrite (IH Hd).
    apply (f_equal (fun a => dec_value_from a d)); lia.
Qed.

(** A string that starts with a decimal digit and not with [0x] or [0X] is
    read in radix 10, from its first code unit on. *)
Lemma parseInt_digit_start c s :
  is_digit c = true -> hex_prefixed (String c s) = false ->
  parseInt (String c s) =
    Some (mathInt 10 (digits_prefix 10 (String c s))).
Proof.
  intros Hc Hx; unfold parseInt.
  simpl trim_start; rewrite (digit_not_ws c Hc).
  rewrite (digit_not_minus c Hc), (digit_not_plus c Hc).
  assert (E : match String c s with
              | String c0 (String c1 r) =>
                  if (code_unit c0 =? 48) && is_x c1
                  then (16, r) else (10, String c s)
              | _ => (10, String c s)
              end = (10, String c s)).
  { destruct s as [|c1 r]; [reflexivity|].
    simpl in Hx; now rewrite Hx. }
  rewrite E; simpl digits_prefix.
  rewrite radix_digit_10, Hc.
  now rewrite Z.mul_1_l.
Qed.

Lemma parseInt_leading d rest :
  d <> "" -> all_digits d = true -> starts_with_digit rest = false ->
  hex_prefixed (d ++ rest) = false ->
  parseInt (d ++ rest) = Some (dec_value d).
Proof.
  intros Hne Hd Hr Hx.
  destruct d as [|c d]; [congruence|].
  pose proof Hd as Hd'; simpl in Hd'.
  apply andb_true_iff in Hd'; destruct Hd' as [Hc _].
  simpl append in *; rewrite (parseInt_digit_start c _ Hc Hx).
  unfold mathInt, dec_value; f_equal.
  now apply (digits_prefix_value (String c d) rest 0).
Qed.

Lemma patch_task_parse st id id' v :
  parseInt id = parseInt id' -> patch_task st id v = patch_task st id' v.
Proof. intros E; unfold patch_task, find_task; now rewrite E. Qed.

Lemma delete_task_parse st id id' :
  parseInt id = parseInt id' -> delete_task st id = delete_task st id'.
Proof. intros E; unfold delete_task; now rewrite E. Qed.

Lemma no_task_nan st id : parseInt id = None -> no_task st id.
Proof. intros E t _; rewrite E; discriminate. Qed.

Lemma digits_not_hex_prefixed d : all_digits d = true -> hex_prefixed d = false.
Proof.
  destruct d as [|c0 [|c1 r]]; simpl; try reflexivity.
  intros H; apply andb_true_iff in H; destruct H as [_ H].
  apply andb_true_iff in H; destruct H as [H1 _].
  apply andb_false_iff; right; now apply digit_not_x.
Qed.

Lemma parseInt_digits d :
  d <> "" -> all_digits d = true -> parseInt d = Some (dec_value d).
Proof.
  intros Hne Hd; rewrite <- (append_nil_r d) at 1.
  apply parseInt_leading; auto.
  rewrite append_nil_r; now apply digits_not_hex_prefixed.
Qed.

(** The reading of C9 as it is worded fails on the code: "0xa" is the digit
    0 followed by two code units that are not digits, and the requests for
    it act on task 10, not as the requests for "0" do; and "0x" starts with
    a digit and parses to [NaN]. *)
Lemma hex_id_counterexample :
  (all_digits "0" = true /\ no_digit "xa" = true /\
   parseInt "0xa" = Some 10 /\ dec_value "0" = 0 /\
   fst (delete_task ten_store "0xa") = send 200 "Task deleted" /\
   fst (delete_task ten_store "0") =
     send 404 "Task not found or already deleted" /\
   fst (patch_task ten_store "0xa" (VStr "done")) = send 200 "Task updated" /\
   fst (patch_task ten_store "0" (VStr "done")) = send 404 "Task not found" /\
   starts_with_digit "0x" = true /\ parseInt "0x" = None) /\
  ~ (forall st d rest,
       d <> "" -> all_digits d = true ->
       rest <> "" -> no_digit rest = true ->
       delete_task st (d ++ rest) = delete_task st d) /\
  ~ (forall s, parseInt s = None -> starts_with_digit s = false).
Proof.
  split; [repeat split; vm_compute; reflexivity | split].
  - intros H.
    specialize (H ten_store "0" "xa").
    assert (E : fst (delete_task ten_store ("0" ++ "xa")) =
                fst (delete_task ten_store "0")).
    { rewrite H; try reflexivity; discriminate. }
    vm_compute in E; discriminate.
  - intros H; specialize (H "0x" eq_refl); discriminate.
Qed.

(** C9, as the code has it.  A path id made of one or more decimal digits
    followed by anything that does not start with a digit, the whole not
    starting with [0x] or [0X], parses to the number its digits denote:
    PATCH and DELETE look for the task with that id and do exactly what they
    do for the digits alone.  A path id that parses to [NaN] has no leading
    digit or starts with [0x] or [0X]; it matches no task, and PATCH and
    DELETE answer 404 and leave the store as it was. *)
Theorem parseInt_path_id (st : store) (v : jsval) :
  (forall d rest,
     d <> "" -> all_digits d = true -> starts_with_digit rest = false ->
     hex_prefixed (d ++ rest) = false ->
     parseInt (d ++ rest) = Some (dec_value d) /\
     find_task st (d ++ rest) =
       find (fun t => Task.id t =? dec_value d) (tasks st) /\
     patch_task st (d ++ rest) v = patch_task st d v /\
     delete_task st (d ++ rest) = delete_task st d) /\
  (forall s,
     parseInt s = None ->
     (starts_with_digit s = false \/ hex_prefixed s = true) /\
     patch_task st s v = (send 404 "Task not found", st) /\
     delete_task st s =
       (send 404 "Task not found or already deleted", st)).
Proof.
  split.
  - intros d rest Hne Hd Hr Hx.
    pose proof (parseInt_leading d rest Hne Hd Hr Hx) as E.
    pose proof (parseInt_digits d Hne Hd) as E'.
    split; [exact E | split; [|split]].
    + unfold find_task; rewrite E; reflexivity.
    + apply patch_task_parse; congruence.
    + apply delete_task_parse; congruence.
  - intros s E; split; [|split].
    + destruct s as [|c s']; [now left|].
      destruct (is_digit c) eqn:Hc; [|now left].
      destruct (hex_prefixed (String c s')) eqn:Hx; [now right|].
      rewrite (parseInt_digit_start c s' Hc Hx) in E; discriminate.
    + apply patch_task_missing, no_task_nan, E.
    + apply delete_task_missing, no_task_nan, E.
Qed.

Lemma parseInt_path_id_witness :
  (parseInt "1abc" = Some 1 /\
   patch_task alice_store "1abc" (VStr "backlog") =
     patch_task alice_store "1" (VStr "backlog") /\
   delete_task alice_store "1abc" = delete_task alice_store "1") /\
  (parseInt "abc" = None /\
   patch_task alice_store "abc" (VStr "backlog") =
     (send 404 "Task not found", alice_store) /\
   delete_task alice_store "abc" =
     (send 404 "Task not found or already deleted", alice_store)).
Proof.
  destruct (parseInt_path_id alice_store (VStr "backlog")) as [H1 H2].
  split.
  - destruct (H1 "1" "abc") as (Hp & _ & Hu & Hd);
      try reflexivity; try discriminate.
    split; [exact Hp | split; [exact Hu | exact Hd]].
  - destruct (H2 "abc" eq_refl) as (_ & Hu & Hd).
    split; [reflexivity | split; [exact Hu | exact Hd]].
Defined.

(** ** The text of a task is never looked at *)

Lemma find_user_blank st u : find_user (blank st) u = find_user st u.
Proof. reflexivity. Qed.

Lemma find_blank (p : Task.t -> bool) l :
  (forall x, p (blank_task x) = p x) ->
  find p (map blank_task l) = option_map blank_task (find p l).
Proof.
  intros Hp; induction l as [|x l IH]; simpl; [reflexivity|].
  rewrite Hp; destruct (p x); [reflexivity | exact IH].
Qed.

Lemma filter_blank (p : Task.t -> bool) l :
  (forall x, p (blank_task x) = p x) ->
  filter p (map blank_task l) = map blank_task (filter p l).
Proof.
  intros Hp; induction l as [|x l IH]; simpl; [reflexivity|].
  rewrite Hp; destruct (p x); simpl; now rewrite IH.
Qed.

Lemma assign_first_blank (p : Task.t -> bool) v l :
  (forall x, p (blank_task x) = p x) ->
  assign_first p (Task.set_status v) (map blank_task l) =
  map blank_task (assign_first p (Task.set_status v) l).
Proof.
  intros Hp; induction l as [|x l IH]; simpl; [reflexivity|].
  rewrite Hp; destruct (p x); simpl; [reflexivity | now rewrite IH].
Qed.

Lemma post_task_blank st u t :
  post_task (blank st) u VUndefined =
    (blank_outcome (fst (post_task st u t)), blank (snd (post_task st u t))).
Proof.
  unfold post_task; rewrite find_user_blank.
  destruct (find_user st u); [|reflexivity].
  unfold blank; simpl; now rewrite map_app.
Qed.

Lemma patch_task_blank st id v :
  patch_task (blank st) id v =
    (blank_outcome (fst (patch_task st id v)),
     blank (snd (patch_task st id v))).
Proof.
  unfold patch_task, find_task; simpl.
  rewrite find_blank by reflexivity.
  destruct (find _ (tasks st)); simpl; [|reflexivity].
  destruct (includes statuses v); simpl; [|reflexivity].
  unfold blank; simpl; now rewrite assign_first_blank by reflexivity.
Qed.

Lemma delete_task_blank st id :
  delete_task (blank st) id =
    (blank_outcome (fst (delete_task st id)),
     blank (snd (delete_task st id))).
Proof.
  unfold delete_task; simpl.
  rewrite filter_blank by reflexivity.
  rewrite !length_map.
  match goal with |- context [if ?c then _ else _] => destruct c end;
    reflexivity.
Qed.

Lemma get_tasks_blank st u :
  get_tasks (blank st) u =
    (blank_outcome (fst (get_tasks st u)), blank (snd (get_tasks st u))).
Proof.
  unfold get_tasks; rewrite find_user_blank.
  destruct (find_user st u); [|reflexivity].
  simpl; now rewrite filter_blank by reflexivity.
Qed.

(** C10.  POST /task for a registered username answers 201 whatever the
    [task] of the body is, absent ([undefined]) or not a string included,
    and appends a task that carries that value as its text, with the
    counter's value as id; and no handler looks at the text of a task: served
    on the store with every text forgotten, a request gets the same response
    (texts in a listing apart) and leaves the same store (texts apart). *)
Theorem task_text_unvalidated {B : Bcrypt} (st : store) (u : string)
    (task : jsval) (r : request) :
  (registered st u ->
   post_task st (VStr u) task =
     (send 201 "Task added",
      mkStore (users st)
              (tasks st ++ [Task.mk (taskId st) (VStr u) task (VStr "backlog")])
              (taskId st + 1))) /\
  handle (blank st) (blank_request r) =
    (blank_outcome (fst (handle st r)), blank (snd (handle st r))).
Proof.
  split.
  - intros H; unfold post_task.
    apply find_user_some in H; destruct H as (x & -> & _); reflexivity.
  - destruct r; simpl.
    + unfold post_register; rewrite find_user_blank.
      destruct (bcrypt_hash _ _ _); [|reflexivity].
      destruct (find_user st username); reflexivity.
    + unfold post_login; rewrite find_user_blank.
      destruct (find_user st username); [|reflexivity].
      destruct (bcrypt_compare _ _) as [[|]|]; reflexivity.
    + apply post_task_blank.
    + apply patch_task_blank.
    + apply delete_task_blank.
    + apply get_tasks_blank.
Qed.

Lemma task_text_unvalidated_witness :
  post_task alice_store (VStr "alice") VUndefined =
    (send 201 "Task added",
     mkStore (users alice_store)
             (tasks alice_store ++
                [Task.mk 2 (VStr "alice") VUndefined (VStr "backlog")])
             3) /\
  post_task alice_store (VStr "alice") (VNum 5) =
    (send 201 "Task added",
     mkStore (users alice_store)
             (tasks alice_store ++
                [Task.mk 2 (VStr "alice") (VNum 5) (VStr "backlog")])
             3).
Proof.
  split.
  - apply (proj1 (@task_text_unvalidated demo_bcrypt alice_store "alice"
                    VUndefined (ListTasks VNull))).
    unfold registered; vm_compute; auto.
  - apply (proj1 (@task_text_unvalidated demo_bcrypt alice_store "alice"
                    (VNum 5) (ListTasks VNull))).
    unfold registered; vm_compute; auto.
Defined.

(** * Further properties of the handlers *)

(** ** Requests that fail *)

Lemma filter_same_length {A : Type} (f : A -> bool) (l : list A) :
  List.length (filter f l) = List.length l -> filter f l = l.
Proof.
  induction l as [|x l IH]; simpl; [reflexivity|].
  destruct (f x); simpl; intros H.
  - f_equal; apply IH; lia.
  - pose proof (filter_length_le f l); lia.
Qed.

Lemma delete_task_404 st id :
  fst (delete_task st id) = send 404 "Task not found or already deleted" ->
  snd (delete_task st id) = st.
Proof.
  unfold delete_task.
  destruct (Nat.eqb _ _) eqn:E; simpl; [intros _ | discriminate].
  apply Nat.eqb_eq, filter_same_length in E.
  rewrite E; apply store_eta.
Qed.

(** X1.  A request that is answered, and answered neither 200 nor 201
    (so 400 or 404), leaves the store exactly as it was: no handler changes
    anything on a path that ends in an error response. *)
Theorem failure_keeps_store {B : Bcrypt} (st : store) (r : request)
    (w : response) :
  fst (handle st r) = Sent w ->
  code w <> 200 -> code w <> 201 ->
  snd (handle st r) = st.
Proof.
  destruct r; simpl; intros Hw H200 H201.
  - unfold post_register in *.
    destruct (bcrypt_hash _ _ _); [|reflexivity].
    destruct (find_user st username); [reflexivity|].
    simpl in Hw; injection Hw as <-; simpl in H201; congruence.
  - apply post_login_store.
  - unfold post_task in *.
    destruct (find_user st username); [|reflexivity].
    simpl in Hw; injection Hw as <-; simpl in H201; congruence.
  - unfold patch_task in *.
    destruct (find_task st id); [|reflexivity].
    destruct (negb _); [reflexivity|].
    simpl in Hw; injection Hw as <-; simpl in H200; congruence.
  - apply delete_task_404.
    unfold delete_task in *.
    destruct (Nat.eqb _ _); [reflexivity|].
    simpl in Hw; injection Hw as <-; simpl in H200; congruence.
  - apply get_tasks_store.
Qed.

Lemma failure_keeps_store_witness :
  fst (@handle demo_bcrypt busy_store (DeleteTask "2")) =
    send 404 "Task not found or already deleted" /\
  snd (@handle demo_bcrypt busy_store (DeleteTask "2")) = busy_store /\
  snd (@handle demo_bcrypt busy_store
         (Register (VStr "alice") (VStr "pw9") "salt")) = busy_store.
Proof.
  split; [reflexivity | split].
  - apply (@failure_keeps_store demo_bcrypt busy_store (DeleteTask "2")
             (mkResponse 404 (Text "Task not found or already deleted"))
             eq_refl); simpl; discriminate.
  - apply (@failure_keeps_store demo_bcrypt busy_store
             (Register (VStr "alice") (VStr "pw9") "salt")
             (mkResponse 400 (Text "User already exists"))
             eq_refl); simpl; discriminate.
Defined.

(** ** What each handler leaves alone *)


(** ** The status of held tasks *)

(** X3.  In a store the service can be in, the status of every held task
    is one of "backlog", "inProgress", "done" and "onAccess". *)
Theorem held_status_allowed {B : Bcrypt} (tr : list request) (t : Task.t) :
  In t (tasks (run tr init)) -> allowed (Task.status t).
Proof. apply (wf_status _ (run_wf tr)). Qed.

Lemma held_status_allowed_witness :
  In (Task.mk 1 (VStr "alice") (VStr "buy milk") (VStr "done"))
     (tasks alice_store) /\
  allowed (VStr "done").
Proof.
  assert (Hin : In (Task.mk 1 (VStr "alice") (VStr "buy milk") (VStr "done"))
                   (tasks (@run demo_bcrypt alice_trace init)))
    by (vm_compute; auto).
  split; [exact Hin|].
  apply (@held_status_allowed demo_bcrypt alice_trace _ Hin).
Defined.

(** ** The order of the task collection *)

Lemma sorted_snoc (l : list Z) (y : Z) :
  StronglySorted Z.lt l -> (forall x, In x l -> x < y) ->
  StronglySorted Z.lt (l ++ [y]).
Proof.
  induction l as [|x l IH]; simpl; intros Hs Hlt.
  - constructor; constructor.
  - inversion Hs as [|? ? Hl Hx]; subst.
    constructor; [apply IH; auto|].
    apply Forall_app; split; [exact Hx|].
    constructor; [apply Hlt; auto | constructor].
Qed.

Lemma sorted_map_filter {A : Type} (f : A -> Z) (p : A -> bool) l :
  StronglySorted Z.lt (map f l) -> StronglySorted Z.lt (map f (filter p l)).
Proof.
  induction l as [|x l IH]; simpl; intros Hs; [constructor|].
  inversion Hs as [|? ? Hl Hx]; subst.
  destruct (p x); simpl; [|auto].
  constructor; [auto|].
  rewrite Forall_forall in *; intros y Hy; apply Hx.
  apply in_map_iff in Hy; destruct Hy as (z & <- & Hz).
  apply filter_In in Hz; apply in_map; tauto.
Qed.

Lemma sorted_length (l : list Z) (a c : Z) :
  StronglySorted Z.lt l -> (forall x, In x l -> a <= x < c) -> a <= c ->
  Z.of_nat (List.length l) <= c - a.
Proof.
  revert a; induction l as [|x l IH]; simpl List.length; intros a Hs Hb Hac.
  - simpl; lia.
  - inversion Hs as [|? ? Hl Hx]; subst.
    pose proof (Hb x (or_introl eq_refl)) as Hxb.
    rewrite Forall_forall in Hx.
    assert (Z.of_nat (List.length l) <= c - (a + 1)).
    { apply IH; [exact Hl | | lia].
      intros y Hy; specialize (Hx y Hy).
      specialize (Hb y (or_intror Hy)); lia. }
    lia.
Qed.

Lemma handle_sorted {B : Bcrypt} st r :
  wf st -> StronglySorted Z.lt (map Task.id (tasks st)) ->
  StronglySorted Z.lt (map Task.id (tasks (snd (handle st r)))).
Proof.
  intros W Hs; destruct r; simpl.
  - unfold post_register.
    destruct (bcrypt_hash _ _ _); [|exact Hs].
    destruct (find_user st username); exact Hs.
  - now rewrite post_login_store.
  - unfold post_task; destruct (find_user st username); [|exact Hs].
    simpl; rewrite map_app; apply sorted_snoc; [exact Hs|].
    intros x Hx; apply in_map_iff in Hx; destruct Hx as (y & <- & Hy).
    apply (wf_bound _ W y Hy).
  - unfold patch_task; destruct (find_task st id); [|exact Hs].
    destruct (negb _); [exact Hs|].
    simpl; now rewrite assign_first_ids.
  - unfold delete_task; destruct (Nat.eqb _ _); simpl;
      now apply sorted_map_filter.
  - now rewrite get_tasks_store.
Qed.

Lemma run_sorted_from {B : Bcrypt} tr st :
  wf st -> StronglySorted Z.lt (map Task.id (tasks st)) ->
  StronglySorted Z.lt (map Task.id (tasks (run tr st))).
Proof.
  revert st; induction tr as [|r tr IH]; intros st W Hs; [exact Hs|].
  apply (IH (snd (handle st r))); [now apply handle_wf | now apply handle_sorted].
Qed.

Lemma run_sorted {B : Bcrypt} tr :
  StronglySorted Z.lt (map Task.id (tasks (run tr init))).
Proof. apply run_sorted_from; [apply init_wf | constructor]. Qed.

(** X4.  In a store the service can be in, the task collection is in
    strictly increasing order of id, every id is at least 1 and below the
    counter, there are at most counter - 1 tasks, and every listing that
    GET /tasks returns is in strictly increasing order of id. *)
Theorem held_ids_increasing {B : Bcrypt} (tr : list request) :
  let st := run tr init in
  StronglySorted Z.lt (map Task.id (tasks st)) /\
  (forall t, In t (tasks st) -> 1 <= Task.id t < taskId st) /\
  Z.of_nat (List.length (tasks st)) <= taskId st - 1 /\
  (forall u ts,
     fst (get_tasks st u) = json ts ->
     StronglySorted Z.lt (map Task.id ts)).
Proof.
  intros st.
  pose proof (run_sorted tr) as Hs; fold st in Hs.
  pose proof (run_wf tr) as W; fold st in W.
  split; [exact Hs | split; [apply (wf_bound _ W) | split]].
  - rewrite <- (length_map Task.id).
    apply sorted_length; [exact Hs | | apply (wf_counter _ W)].
    intros x Hx; apply in_map_iff in Hx; destruct Hx as (t & <- & Ht).
    apply (wf_bound _ W t Ht).
  - intros u ts; unfold get_tasks.
    destruct (find_user st u); [|discriminate].
    unfold json; simpl; intros E; injection E as <-.
    now apply sorted_map_filter.
Qed.

(** ** Ids outside the range handed out *)

(** X5.  In a store the service can be in, a path id that parses to a
    number below 1, or to a number the counter has not passed yet, matches
    no task: PATCH and DELETE answer 404 and leave the store as it was. *)
Theorem id_out_of_range {B : Bcrypt} (tr : list request) (id : string)
    (n : Z) (v : jsval) :
  let st := run tr init in
  parseInt id = Some n ->
  n < 1 \/ taskId st <= n ->
  patch_task st id v = (send 404 "Task not found", st) /\
  delete_task st id = (send 404 "Task not found or already deleted", st).
Proof.
  intros st Hp Hn.
  assert (Hno : no_task st id).
  { intros t Ht E; rewrite Hp in E; injection E as ->.
    pose proof (wf_bound _ (run_wf tr) t Ht) as Hb; fold st in Hb; lia. }
  split; [now apply patch_task_missing | now apply delete_task_missing].
Qed.

Lemma id_out_of_range_witness :
  (parseInt "-1" = Some (-1) /\
   delete_task busy_store "-1" =
     (send 404 "Task not found or already deleted", busy_store)) /\
  (parseInt "4" = Some 4 /\ taskId busy_store = 4 /\
   patch_task busy_store "4" (VStr "done") =
     (send 404 "Task not found", busy_store)).
Proof.
  split; (split; [reflexivity|]).
  - apply (proj2 (@id_out_of_range demo_bcrypt busy_trace "-1" (-1)
                    VNull eq_refl (or_introl eq_refl))).
  - split; [reflexivity|].
    apply (proj1 (@id_out_of_range demo_bcrypt busy_trace "4" 4
                    (VStr "done") eq_refl
                    (or_intror (Z.le_refl 4)))).
Defined.

(** ** The decimal numeral of an id *)

Lemma small_digit d :
  0 <= d < 10 ->
  d = 0 \/ d = 1 \/ d = 2 \/ d = 3 \/ d = 4 \/
  d = 5 \/ d = 6 \/ d = 7 \/ d = 8 \/ d = 9.
Proof. lia. Qed.

Lemma digit_char_code d : 0 <= d < 10 -> code_unit (digit_char d) = 48 + d.
Proof.
  intros H; apply small_digit in H.
  repeat (destruct H as [-> | H]; [reflexivity|]); subst; reflexivity.
Qed.

Lemma digit_char_digit d : 0 <= d < 10 -> is_digit (digit_char d) = true.
Proof.
  intros H; apply small_digit in H.
  repeat (destruct H as [-> | H]; [reflexivity|]); subst; reflexivity.
Qed.

Lemma dec_value_from_app a s1 s2 :
  dec_value_from a (s1 ++ s2)%string = dec_value_from (dec_value_from a s1) s2.
Proof.
  revert a; induction s1 as [|c s1 IH]; intros a;
    cbn [append dec_value_from]; [reflexivity | apply IH].
Qed.

Lemma all_digits_app s1 s2 :
  all_digits (s1 ++ s2)%string = all_digits s1 && all_digits s2.
Proof.
  induction s1 as [|c s1 IH]; simpl; [reflexivity|].
  now rewrite IH, andb_assoc.
Qed.

Lemma decimal_fuel_spec fuel n :
  0 <= n < Z.of_nat fuel ->
  decimal_fuel fuel n <> "" /\
  all_digits (decimal_fuel fuel n) = true /\
  dec_value_from 0 (decimal_fuel fuel n) = n.
Proof.
  revert n; induction fuel as [|fuel IH]; intros n Hn; [lia|].
  cbn [decimal_fuel].
  assert (Hm : 0 <= n mod 10 < 10) by (apply Z.mod_pos_bound; lia).
  destruct (Z.ltb_spec n 10) as [Hlt|Hge].
  - cbn [append]; split; [discriminate | split].
    + cbn [all_digits]; now rewrite digit_char_digit.
    + cbn [dec_value_from]; rewrite digit_char_code by exact Hm.
      rewrite Z.mod_small by lia; lia.
  - assert (Hq : 0 <= n / 10 < Z.of_nat fuel).
    { split; [apply Z.div_pos; lia|].
      assert (n / 10 < n) by (apply Z.div_lt; lia); lia. }
    destruct (IH (n / 10) Hq) as (Hne & Hd & Hv).
    split; [|split].
    + destruct (decimal_fuel fuel (n / 10)); [congruence | discriminate].
    + rewrite all_digits_app, Hd; cbn [all_digits andb].
      now rewrite digit_char_digit.
    + rewrite dec_value_from_app, Hv; cbn [dec_value_from].
      rewrite digit_char_code by exact Hm.
      pose proof (Z.div_mod n 10); lia.
Qed.

Lemma parseInt_decimal n : 0 <= n -> parseInt (decimal n) = Some n.
Proof.
  intros Hn.
  destruct (decimal_fuel_spec (S (Z.to_nat n)) n) as (Hne & Hd & Hv); [lia|].
  unfold decimal; rewrite parseInt_digits by assumption.
  unfold dec_value; now rewrite Hv.
Qed.

Lemma find_split (p : Task.t -> bool) l1 t l2 :
  (forall x, In x l1 -> p x = false) -> p t = true ->
  find p (l1 ++ t :: l2) = Some t.
Proof.
  intros H1 Ht; induction l1 as [|x l1 IH]; simpl.
  - now rewrite Ht.
  - rewrite (H1 x) by (simpl; auto).
    apply IH; intros y Hy; apply H1; simpl; auto.
Qed.

Lemma find_task_unique st id t :
  NoDup (map Task.id (tasks st)) -> In t (tasks st) ->
  parseInt id = Some (Task.id t) -> find_task st id = Some t.
Proof.
  intros Hnd Hin Hp.
  destruct (split_unique (tasks st) t Hnd Hin) as (l1 & l2 & El & Hother).
  unfold find_task; rewrite El, Hp.
  apply find_split.
  - intros x Hx; apply Z.eqb_neq, Hother, in_or_app; auto.
  - apply Z.eqb_refl.
Qed.

(** X6.  In a store the service can be in, the decimal numeral of the id
    of a held task, used as the path parameter, parses back to that id, and
    the lookup of PATCH finds that very task: every held task can be
    addressed by the id a listing shows. *)
Theorem held_task_addressable {B : Bcrypt} (tr : list request) (t : Task.t) :
  In t (tasks (run tr init)) ->
  parseInt (decimal (Task.id t)) = Some (Task.id t) /\
  find_task (run tr init) (decimal (Task.id t)) = Some t.
Proof.
  intros Hin.
  pose proof (wf_bound _ (run_wf tr) t Hin) as Hb.
  assert (Hp : parseInt (decimal (Task.id t)) = Some (Task.id t))
    by (apply parseInt_decimal; lia).
  split; [exact Hp|].
  apply find_task_unique; [apply (wf_nodup _ (run_wf tr)) | exact Hin | exact Hp].
Qed.

Lemma held_task_addressable_witness :
  decimal 10 = "10" /\
  find_task ten_store "10" =
    Some (Task.mk 10 (VStr "alice") (VStr "t") (VStr "backlog")).
Proof.
  split; [reflexivity|].
  apply (proj2 (@held_task_addressable demo_bcrypt ten_trace
                  (Task.mk 10 (VStr "alice") (VStr "t") (VStr "backlog")) 
                  ltac:(vm_compute; tauto))).
Defined.

(** X7.  In a store the service can be in, right after POST /task has
    created a task for a registered user, the decimal numeral of the id it
    was given addresses the new task, and DELETE for it answers 200 and
    gives back the task collection of before the creation; the counter
    stays one higher. *)
Theorem create_then_delete {B : Bcrypt} (tr : list request) (u : string)
    (txt : jsval) :
  let st := run tr init in
  let st1 := snd (post_task st (VStr u) txt) in
  registered st u ->
  find_task st1 (decimal (taskId st)) = Some (newTask st (VStr u) txt) /\
  delete_task st1 (decimal (taskId st)) =
    (send 200 "Task deleted", mkStore (users st) (tasks st) (taskId st + 1)).
Proof.
  intros st st1 Hr.
  pose proof (run_wf tr) as W; fold st in W.
  assert (E1 : st1 = mkStore (users st)
                             (tasks st ++ [newTask st (VStr u) txt])
                             (taskId st + 1)).
  { unfold st1, post_task.
    apply find_user_some in Hr; destruct Hr as (x & -> & _); reflexivity. }
  assert (Hp : parseInt (decimal (taskId st)) =
               Some (Task.id (newTask st (VStr u) txt))).
  { apply parseInt_decimal; pose proof (wf_counter _ W) as Hc.
    simpl; fold st; lia. }
  assert (Hother : forall x, In x (tasks st ++ []) ->
                     Task.id x <> Task.id (newTask st (VStr u) txt)).
  { intros x Hx; rewrite app_nil_r in Hx.
    pose proof (wf_bound _ W x Hx); simpl; lia. }
  rewrite E1; split.
  - unfold find_task; rewrite Hp; simpl tasks.
    apply find_split; [|apply Z.eqb_refl].
    intros x Hx; apply Z.eqb_neq, Hother; now rewrite app_nil_r.
  - rewrite (delete_task_split
               (mkStore (users st) (tasks st ++ [newTask st (VStr u) txt])
                        (taskId st + 1))
               (decimal (taskId st)) (tasks st)
               (newTask st (VStr u) txt) [] eq_refl Hother Hp).
    simpl; now rewrite app_nil_r.
Qed.

Lemma create_then_delete_witness :
  registered alice_store "alice" /\
  delete_task (snd (post_task alice_store (VStr "alice") (VStr "walk"))) "2" =
    (send 200 "Task deleted",
     mkStore (users alice_store) (tasks alice_store) 3).
Proof.
  assert (Hr : registered (@run demo_bcrypt alice_trace init) "alice")
    by (unfold registered; vm_compute; auto).
  split; [exact Hr|].
  apply (proj2 (@create_then_delete demo_bcrypt alice_trace "alice"
                  (VStr "walk") Hr)).
Defined.

(** ** The user collection only grows *)

Lemma find_app_found {A : Type} (p : A -> bool) l l' x :
  find p l = Some x -> find p (l ++ l') = Some x.
Proof.
  induction l as [|y l IH]; simpl; [discriminate|].
  destruct (p y); auto.
Qed.






(** ** Tasks and their owners *)

Lemma strict_eq_right_refl a b : strict_eq a b = true -> strict_eq b b = true.
Proof.
  destruct a, b; simpl; try discriminate; intros _; auto.
  - apply Bool.eqb_reflx.
  - apply Z.eqb_refl.
  - apply String.eqb_refl.
Qed.

Lemma handle_owned {B : Bcrypt} st r : owned st -> owned (snd (handle st r)).
Proof.
  intros Ho; destruct r; simpl.
  - unfold post_register.
    destruct (bcrypt_hash _ _ _) as [h|]; [|exact Ho].
    destruct (find_user st username); [exact Ho|].
    intros t Ht; simpl in Ht; specialize (Ho t Ht).
    unfold find_user in *; simpl.
    destruct (find _ (users st)) as [x|] eqn:E; [|congruence].
    now rewrite (find_app_found _ _ _ _ E).
  - now rewrite post_login_store.
  - unfold post_task.
    destruct (find_user st username) as [x|] eqn:E; [|exact Ho].
    intros t Ht; simpl in Ht; apply in_app_or in Ht.
    destruct Ht as [Ht|[<-|[]]]; [apply (Ho t Ht)|].
    unfold find_user in *; simpl; congruence.
  - unfold patch_task; destruct (find_task st id) as [found|]; [|exact Ho].
    destruct (negb _); [exact Ho|].
    intros t Ht; simpl in Ht; apply assign_first_In in Ht.
    destruct Ht as [Ht|(x & Hx & ->)]; [apply (Ho t Ht) | apply (Ho x Hx)].
  - unfold delete_task; destruct (Nat.eqb _ _);
      intros t Ht; simpl in Ht; apply filter_In in Ht; apply (Ho t), Ht.
  - now rewrite get_tasks_store.
Qed.

Lemma run_owned {B : Bcrypt} tr : owned (run tr init).
Proof.
  assert (H : forall st, owned st -> owned (run tr st)).
  { induction tr as [|r tr IH]; intros st Ho; [exact Ho|].
    apply (IH (snd (handle st r))); now apply handle_owned. }
  apply H; intros t [].
Qed.

(** X9.  In a store the service can be in, the username of every held
    task is the username of a user record.  When that username is a value a
    query parameter can have (a string, or [undefined] for a request
    without the parameter), GET /tasks for it answers 200 and the listing
    contains the task.  When it is not (a number, a boolean or [null], which
    a JSON body can carry and a query cannot), no GET /tasks lists the task,
    whatever the query parameter is. *)
Theorem held_task_listed {B : Bcrypt} (tr : list request) (t : Task.t) :
  let st := run tr init in
  In t (tasks st) ->
  find_user st (Task.username t) <> None /\
  (from_query (Task.username t) = true ->
   exists ts,
     get_tasks st (Task.username t) = (json ts, st) /\ In t ts) /\
  (from_query (Task.username t) = false ->
   forall q ts,
     from_query q = true ->
     fst (get_tasks st q) = json ts -> ~ In t ts).
Proof.
  intros st Hin.
  pose proof (run_owned tr t Hin) as Ho; fold st in Ho.
  split; [exact Ho | split].
  - intros _; unfold get_tasks.
    destruct (find_user st (Task.username t)) as [x|] eqn:E; [|congruence].
    eexists; split; [reflexivity|].
    apply filter_In; split; [exact Hin|].
    apply find_some in E; destruct E as [_ E].
    now apply strict_eq_right_refl in E.
  - intros Hu q ts Hq Hts Hlisted.
    unfold get_tasks in Hts.
    destruct (find_user st q); [|discriminate Hts].
    unfold json in Hts; simpl in Hts; injection Hts as <-.
    apply filter_In in Hlisted; destruct Hlisted as [_ E].
    destruct (Task.username t), q; simpl in *; discriminate.
Qed.

Lemma held_task_listed_witness :
  (exists ts,
     get_tasks busy_store (VStr "alice") = (json ts, busy_store) /\
     In (Task.mk 3 (VStr "alice") (VStr "c") (VStr "backlog")) ts) /\
  (In (Task.mk 1 (VNum 5) (VStr "t") (VStr "backlog")) (tasks five_store) /\
   forall ts,
     fst (get_tasks five_store (VStr "5")) = json ts ->
     ~ In (Task.mk 1 (VNum 5) (VStr "t") (VStr "backlog")) ts).
Proof.
  assert (H3 : In (Task.mk 3 (VStr "alice") (VStr "c") (VStr "backlog"))
                  (tasks (@run demo_bcrypt busy_trace init)))
    by (vm_compute; tauto).
  assert (H5 : In (Task.mk 1 (VNum 5) (VStr "t") (VStr "backlog"))
                  (tasks (@run demo_bcrypt five_trace init)))
    by (vm_compute; tauto).
  split; [|split; [exact H5|]].
  - apply (proj1 (proj2 (@held_task_listed demo_bcrypt busy_trace _ H3))
             eq_refl).
  - intros ts.
    apply (proj2 (proj2 (@held_task_listed demo_bcrypt five_trace _ H5))
             eq_refl (VStr "5") ts eq_refl).
Defined.

(** ** Registration, then login *)



(** ** Listings after a creation and after a deletion *)

Lemma get_tasks_listing st u ts :
  fst (get_tasks st u) = json ts ->
  find_user st u <> None /\
  ts = filter (fun t => strict_eq (Task.username t) u) (tasks st).
Proof.
  unfold get_tasks; destruct (find_user st u); [|discriminate].
  unfold json; simpl; intros E; injection E as <-.
  split; [discriminate | reflexivity].
Qed.

(** X11.  Right after POST /task has created a task for a registered
    user, the listing of that user is the listing of before with the new
    task at its end, and the response to GET /tasks for any other string
    username is what it was. *)
Theorem listing_after_create (st : store) (u : string) (txt : jsval) :
  let st1 := snd (post_task st (VStr u) txt) in
  registered st u ->
  (forall ts,
     fst (get_tasks st (VStr u)) = json ts ->
     fst (get_tasks st1 (VStr u)) =
       json (ts ++ [Task.mk (taskId st) (VStr u) txt (VStr "backlog")])) /\
  (forall u', u' <> u ->
     fst (get_tasks st1 (VStr u')) = fst (get_tasks st (VStr u'))).
Proof.
  intros st1 Hr.
  assert (E1 : st1 = mkStore (users st)
                             (tasks st ++ [newTask st (VStr u) txt])
                             (taskId st + 1)).
  { unfold st1, post_task.
    apply find_user_some in Hr; destruct Hr as (x & -> & _); reflexivity. }
  rewrite E1; split.
  - intros ts Hts; apply get_tasks_listing in Hts; destruct Hts as [Hf ->].
    unfold get_tasks, find_user in *; simpl.
    destruct (find _ (users st)); [|congruence].
    rewrite filter_app; simpl; now rewrite String.eqb_refl.
  - intros u' Hne; unfold get_tasks, find_user; simpl.
    destruct (find _ (users st)); [|reflexivity].
    rewrite filter_app; simpl.
    replace (String.eqb u u') with false
      by (symmetry; apply String.eqb_neq; congruence).
    now rewrite app_nil_r.
Qed.

Lemma listing_after_create_witness :
  fst (get_tasks (snd (post_task alice_store (VStr "alice") (VStr "walk")))
         (VStr "alice")) =
    json [Task.mk 1 (VStr "alice") (VStr "buy milk") (VStr "done");
          Task.mk 2 (VStr "alice") (VStr "walk") (VStr "backlog")].
Proof.
  apply (proj1 (listing_after_create alice_store "alice" (VStr "walk")
                  ltac:(unfold registered; vm_compute; tauto))
           [Task.mk 1 (VStr "alice") (VStr "buy milk") (VStr "done")]).
  reflexivity.
Defined.

Lemma filter_swap {A : Type} (f g : A -> bool) (l : list A) :
  filter f (filter g l) = filter g (filter f l).
Proof.
  induction l as [|x l IH]; simpl; [reflexivity|].
  destruct (f x) eqn:Ef, (g x) eqn:Eg; simpl;
    rewrite ?Ef, ?Eg, IH; reflexivity.
Qed.

(** X12.  After DELETE /task/:id, answered 200 or 404, no held task has
    the id; PATCH for the same id answers 404; and the listing of every user
    is the listing of before without the tasks of that id, the others in
    their order. *)
Theorem after_delete (st : store) (id : string) :
  let st1 := snd (delete_task st id) in
  no_task st1 id /\
  (forall v, patch_task st1 id v = (send 404 "Task not found", st1)) /\
  (forall u ts,
     fst (get_tasks st u) = json ts ->
     fst (get_tasks st1 u) =
       json (filter (fun t => negb (num_eq (Task.id t) (parseInt id))) ts)).
Proof.
  intros st1.
  assert (E1 : st1 = mkStore (users st)
                       (filter (fun t => negb (num_eq (Task.id t) (parseInt id)))
                               (tasks st))
                       (taskId st)).
  { unfold st1, delete_task; destruct (Nat.eqb _ _); reflexivity. }
  assert (Hno : no_task st1 id).
  { rewrite E1; intros t Ht E; simpl in Ht.
    apply filter_In in Ht; destruct Ht as [_ Ht].
    apply negb_true_iff, num_eq_false in Ht; contradiction. }
  split; [exact Hno | split].
  - intros v; now apply patch_task_missing.
  - intros u ts Hts; apply get_tasks_listing in Hts; destruct Hts as [Hf ->].
    rewrite E1; unfold get_tasks, find_user in *; simpl.
    destruct (find _ (users st)); [|congruence].
    now rewrite filter_swap.
Qed.

(** ** Updating a status twice *)

Lemma find_assign_first n v l :
  find (fun task => num_eq (Task.id task) n)
       (assign_first (fun task => num_eq (Task.id task) n)
                     (Task.set_status v) l) =
  option_map (Task.set_status v)
             (find (fun task => num_eq (Task.id task) n) l).
Proof.
  induction l as [|x l IH]; simpl; [reflexivity|].
  destruct (num_eq (Task.id x) n) eqn:E; simpl; rewrite E;
    [reflexivity | exact IH].
Qed.

Lemma assign_first_twice n v v' l :
  assign_first (fun task => num_eq (Task.id task) n) (Task.set_status v')
    (assign_first (fun task => num_eq (Task.id task) n)
                  (Task.set_status v) l) =
  assign_first (fun task => num_eq (Task.id task) n) (Task.set_status v') l.
Proof.
  induction l as [|x l IH]; simpl; [reflexivity|].
  destruct (num_eq (Task.id x) n) eqn:E; simpl; rewrite E;
    [reflexivity | now rewrite IH].
Qed.

(** X13.  Two PATCH requests for one id, served one after the other: the
    second gets the response it would have got served alone; when its status
    is one of the four labels it leaves the store it would have left served
    alone (the last status written wins, and writing the same status again
    changes nothing more); when its status is not, the store stays as the
    first request left it. *)
Theorem patch_twice (st : store) (id : string) (v v' : jsval) :
  let st1 := snd (patch_task st id v) in
  fst (patch_task st1 id v') = fst (patch_task st id v') /\
  (allowed v' -> snd (patch_task st1 id v') = snd (patch_task st id v')) /\
  (~ allowed v' -> snd (patch_task st1 id v') = st1).
Proof.
  intros st1.
  assert (Hbad : ~ allowed v' -> includes statuses v' = false).
  { intros Hn; destruct (includes statuses v') eqn:E; [|reflexivity].
    apply includes_allowed in E; contradiction. }
  assert (Hkept : st1 = st ->
            fst (patch_task st1 id v') = fst (patch_task st id v') /\
            (allowed v' ->
             snd (patch_task st1 id v') = snd (patch_task st id v')) /\
            (~ allowed v' -> snd (patch_task st1 id v') = st1)).
  { intros ->; split; [reflexivity | split; [reflexivity|]].
    intros Hn; unfold patch_task.
    destruct (find_task st id); [|reflexivity].
    now rewrite (Hbad Hn). }
  destruct (find_task st id) as [found|] eqn:Ef;
    [|apply Hkept; unfold st1, patch_task; now rewrite Ef].
  destruct (includes statuses v) eqn:Ev;
    [|apply Hkept; unfold st1, patch_task; now rewrite Ef, Ev].
  assert (E1 : st1 = mkStore (users st)
                       (assign_first
                          (fun task => num_eq (Task.id task) (parseInt id))
                          (Task.set_status v) (tasks st))
                       (taskId st))
    by (unfold st1, patch_task; now rewrite Ef, Ev).
  assert (Ef1 : find_task st1 id = Some (Task.set_status v found)).
  { rewrite E1; unfold find_task in *; simpl.
    now rewrite find_assign_first, Ef. }
  unfold patch_task; rewrite Ef, Ef1.
  split; [|split].
  - destruct (negb (includes statuses v')); reflexivity.
  - intros Ha; apply includes_allowed in Ha; rewrite Ha; simpl.
    rewrite E1; simpl; now rewrite assign_first_twice.
  - intros Hn; rewrite (Hbad Hn); reflexivity.
Qed.

Lemma patch_twice_witness :
  snd (patch_task (snd (patch_task busy_store "3" (VStr "done")))
                  "3" (VStr "inProgress")) =
  snd (patch_task busy_store "3" (VStr "inProgress")) /\
  snd (patch_task (snd (patch_task busy_store "3" (VStr "done")))
                  "3" (VStr "finished")) =
  snd (patch_task busy_store "3" (VStr "done")).
Proof.
  split.
  - apply (proj1 (proj2 (patch_twice busy_store "3" (VStr "done")
                           (VStr "inProgress")))).
    apply includes_allowed; reflexivity.
  - apply (proj2 (proj2 (patch_twice busy_store "3" (VStr "done")
                           (VStr "finished")))).
    intros Ha; apply includes_allowed in Ha; vm_compute in Ha; discriminate.
Defined.

(** ** What never changes in a task *)

Lemma assign_first_identity p v l :
  map identity (assign_first p (Task.set_status v) l) = map identity l.
Proof.
  induction l as [|x l IH]; simpl; [reflexivity|].
  destruct (p x); simpl; [reflexivity | now rewrite IH].
Qed.

Lemma post_register_tasks {B : Bcrypt} st u p salt :
  tasks (snd (post_register st u p salt)) = tasks st.
Proof.
  unfold post_register; destruct (bcrypt_hash _ _ _); [|reflexivity].
  destruct (find_user st u); reflexivity.
Qed.

(** X14.  No handler edits the id, the username or the text of a held
    task: PATCH leaves them as they are, task by task and in order, and
    whatever the request, a task held after it is a task held before it
    with these three fields unchanged, or the task that POST /task has just
    built. *)
Theorem task_identity_kept {B : Bcrypt} (st : store) :
  (forall id v,
     map identity (tasks (snd (patch_task st id v))) =
     map identity (tasks st)) /\
  (forall r t',
     In t' (tasks (snd (handle st r))) ->
     (exists t, In t (tasks st) /\ identity t = identity t') \/
     (exists u txt, r = CreateTask u txt /\ t' = newTask st u txt)).
Proof.
  assert (Hpatch : forall id v,
            map identity (tasks (snd (patch_task st id v))) =
            map identity (tasks st)).
  { intros id v; unfold patch_task.
    destruct (find_task st id); [|reflexivity].
    destruct (negb _); [reflexivity|].
    apply assign_first_identity. }
  split; [exact Hpatch|].
  intros r t' Hin.
  assert (Hold : In t' (tasks st) ->
            (exists t, In t (tasks st) /\ identity t = identity t') \/
            (exists u txt, r = CreateTask u txt /\ t' = newTask st u txt))
    by (intros H; left; exists t'; auto).
  destruct r; simpl in Hin.
  - rewrite post_register_tasks in Hin; auto.
  - rewrite post_login_store in Hin; auto.
  - unfold post_task in Hin.
    destruct (find_user st username); [|auto].
    simpl in Hin; apply in_app_or in Hin.
    destruct Hin as [Hin|[<-|[]]]; [auto|].
    right; eauto.
  - left.
    assert (Hi : In (identity t') (map identity (tasks st)))
      by (rewrite <- (Hpatch id status); now apply in_map).
    apply in_map_iff in Hi; destruct Hi as (t & E & Ht); eauto.
  - unfold delete_task in Hin.
    destruct (Nat.eqb _ _); simpl in Hin; apply filter_In in Hin;
      apply Hold, Hin.
  - rewrite get_tasks_store in Hin; auto.
Qed.

(** ** Usernames that are not strings *)

Lemma strict_eq_reference a u : is_reference u = true -> strict_eq a u = false.
Proof. destruct a, u; simpl; intros H; try reflexivity; discriminate. Qed.

Lemma strict_eq_primitive a u :
  is_reference u = false -> (strict_eq a u = true <-> a = u).
Proof.
  destruct a, u; simpl; intros H; try discriminate H;
    split; intros E; try discriminate E; try reflexivity.
  - apply Bool.eqb_prop in E; now subst.
  - injection E as ->; apply Bool.eqb_reflx.
  - apply Z.eqb_eq in E; now subst.
  - injection E as ->; apply Z.eqb_refl.
  - apply String.eqb_eq in E; now subst.
  - injection E as ->; apply String.eqb_refl.
Qed.

Lemma find_user_reference st u : is_reference u = true -> find_user st u = None.
Proof.
  intros H; unfold find_user; induction (users st) as [|x l IH]; simpl;
    [reflexivity|].
  now rewrite (strict_eq_reference (User.username x) u H).
Qed.

Lemma find_user_primitive st u :
  is_reference u = false ->
  (find_user st u = None <-> ~ In u (map User.username (users st))).
Proof.
  intros H; unfold find_user; induction (users st) as [|x l IH]; simpl.
  - tauto.
  - destruct (strict_eq (User.username x) u) eqn:E.
    + apply (strict_eq_primitive _ u H) in E; split; [discriminate | tauto].
    + rewrite IH; split; [|tauto].
      intros Hn [Hx|Hl]; [|tauto].
      apply (strict_eq_primitive _ u H) in Hx; congruence.
Qed.

(** X15.  A username that is an array or an object is [===] to no stored
    username, not even to one registered with the same contents: login with
    it answers 400 "Invalid credentials", POST /task and GET /tasks answer
    400 "User not found", and POST /register never finds it taken, so every
    attempt whose password hashes appends one more record. *)
Theorem reference_username {B : Bcrypt} (st : store) (u : jsval) :
  is_reference u = true ->
  (forall p, post_login st u p = (invalid_credentials, st)) /\
  (forall txt, post_task st u txt = (send 400 "User not found", st)) /\
  get_tasks st u = (send 400 "User not found", st) /\
  (forall p salt h,
     bcrypt_hash p 8 salt = Some h ->
     post_register st u p salt =
       (send 201 "User registered",
        mkStore (users st ++ [User.mk u h]) (tasks st) (taskId st))).
Proof.
  intros H; pose proof (find_user_reference st u H) as Ef.
  repeat split.
  - intros p; unfold post_login; now rewrite Ef.
  - intros txt; unfold post_task; now rewrite Ef.
  - unfold get_tasks; now rewrite Ef.
  - intros p salt h Eh; unfold post_register; now rewrite Eh, Ef.
Qed.

Lemma reference_username_witness :
  let st1 :=
    snd (@post_register demo_bcrypt init (VArr [VStr "a"]) (VStr "pw") "s") in
  users st1 = [User.mk (VArr [VStr "a"]) "$2a$08$s.pw"] /\
  @post_login demo_bcrypt st1 (VArr [VStr "a"]) (VStr "pw") =
    (invalid_credentials, st1) /\
  @post_register demo_bcrypt st1 (VArr [VStr "a"]) (VStr "pw") "s" =
    (send 201 "User registered",
     mkStore (users st1 ++ [User.mk (VArr [VStr "a"]) "$2a$08$s.pw"])
             (tasks st1) (taskId st1)).
Proof.
  intros st1; split; [reflexivity|].
  destruct (@reference_username demo_bcrypt st1 (VArr [VStr "a"]) eq_refl)
    as (Hl & _ & _ & Hr).
  split; [apply Hl | apply Hr; reflexivity].
Defined.

(** X16.  A username that is not an array or an object (a string, a
    number, a boolean, [null], or [undefined], which is what a request
    without the field carries) is looked up by equality: POST /task answers
    201 and appends the task when a user record has that very value as
    username and 400 otherwise, GET /tasks answers 200 or 400 likewise, and
    POST /register answers 400 when the value is taken. *)
Theorem primitive_username {B : Bcrypt} (st : store) (u : jsval) :
  is_reference u = false ->
  (In u (map User.username (users st)) ->
   (forall txt,
      post_task st u txt =
        (send 201 "Task added",
         mkStore (users st)
                 (tasks st ++ [Task.mk (taskId st) u txt (VStr "backlog")])
                 (taskId st + 1))) /\
   (exists ts, get_tasks st u = (json ts, st)) /\
   (forall p salt h,
      bcrypt_hash p 8 salt = Some h ->
      post_register st u p salt = (send 400 "User already exists", st))) /\
  (~ In u (map User.username (users st)) ->
   (forall txt, post_task st u txt = (send 400 "User not found", st)) /\
   get_tasks st u = (send 400 "User not found", st)).
Proof.
  intros H; pose proof (find_user_primitive st u H) as Hf.
  split; intros Hin.
  - destruct (find_user st u) as [x|] eqn:Ef;
      [|exfalso; now apply (proj1 Hf)].
    repeat split.
    + intros txt; unfold post_task; now rewrite Ef.
    + unfold get_tasks; rewrite Ef; eauto.
    + intros p salt h Eh; unfold post_register; now rewrite Eh, Ef.
  - apply Hf in Hin; split.
    + intros txt; unfold post_task; now rewrite Hin.
    + unfold get_tasks; now rewrite Hin.
Qed.

Lemma primitive_username_witness :
  let st1 :=
    snd (@post_register demo_bcrypt init VUndefined (VStr "pw") "s") in
  post_task st1 VUndefined (VStr "x") =
    (send 201 "Task added",
     mkStore (users st1)
             [Task.mk 1 VUndefined (VStr "x") (VStr "backlog")] 2) /\
  post_task st1 VNull (VStr "x") = (send 400 "User not found", st1).
Proof.
  intros st1.
  destruct (@primitive_username demo_bcrypt st1 VUndefined eq_refl)
    as [Hyes _].
  destruct (@primitive_username demo_bcrypt st1 VNull eq_refl) as [_ Hno].
  split.
  - apply (proj1 (Hyes ltac:(vm_compute; tauto))).
  - apply (proj1 (Hno ltac:(vm_compute; intros [E|[]]; discriminate E))).
Defined.

(** ** A password that bcrypt rejects *)

(** X17.  With a password on which bcrypt rejects, the process does not
    survive every request.  POST /register gets no response and ends the
    process, before the username is looked at.  POST /login for a username
    that is not registered is answered 400 "Invalid credentials", without a
    call of [bcrypt.compare], and the service carries on with its store; for
    a username that is registered it gets no response and ends the process.
    So what comes back tells whether the username is registered. *)
Theorem rejected_password {B : Bcrypt} (st : store) (u : string) (p : jsval) :
  (forall h, bcrypt_compare p h = None) ->
  (forall salt, bcrypt_hash p 8 salt = None ->
     serve (Up st) (Register (VStr u) p salt) = (None, Down)) /\
  (registered st u ->
   serve (Up st) (Login (VStr u) p) = (None, Down)) /\
  (~ registered st u ->
   serve (Up st) (Login (VStr u) p) =
     (Some (mkResponse 400 (Text "Invalid credentials")), Up st)).
Proof.
  intros Hc; split; [|split].
  - intros salt Eh; simpl; unfold post_register; now rewrite Eh.
  - intros Hr; simpl; unfold post_login.
    apply find_user_some in Hr; destruct Hr as (x & -> & _).
    now rewrite Hc.
  - intros Hn; simpl; unfold post_login.
    apply find_user_none in Hn; now rewrite Hn.
Qed.

Lemma rejected_password_witness :
  @serve demo_bcrypt (Up alice_store) (Login (VStr "alice") VUndefined) =
    (None, Down) /\
  @serve demo_bcrypt (Up alice_store) (Login (VStr "bob") VUndefined) =
    (Some (mkResponse 400 (Text "Invalid credentials")), Up alice_store) /\
  @serve demo_bcrypt (Up alice_store)
     (Register (VStr "bob") VUndefined "s") = (None, Down).
Proof.
  destruct (@rejected_password demo_bcrypt alice_store "alice" VUndefined
              (fun h => eq_refl)) as (_ & Hl & _).
  destruct (@rejected_password demo_bcrypt alice_store "bob" VUndefined
              (fun h => eq_refl)) as (Hr & _ & Hb).
  split; [|split].
  - apply Hl; unfold registered; vm_compute; tauto.
  - apply Hb; unfold registered; vm_compute; intros [E|[]]; discriminate E.
  - apply Hr; reflexivity.
Defined.

(** ** Path ids with white space, a sign, or a hexadecimal prefix *)

Lemma trim_start_ws w s : all_ws w = true -> trim_start (w ++ s) = trim_start s.
Proof.
  induction w as [|c w IH]; simpl; [reflexivity|].
  intros H; apply andb_true_iff in H; destruct H as [Hc Hw].
  rewrite Hc; auto.
Qed.

Lemma parseInt_ws w s : all_ws w = true -> parseInt (w ++ s) = parseInt s.
Proof. intros H; unfold parseInt; now rewrite trim_start_ws. Qed.

Lemma radix_choice s :
  hex_prefixed s = false ->
  match s with
  | String c0 (String c1 r) =>
      if (code_unit c0 =? 48) && is_x c1 then (16, r) else (10, s)
  | _ => (10, s)
  end = (10, s).
Proof.
  destruct s as [|c0 [|c1 r]]; try reflexivity.
  simpl; intros ->; reflexivity.
Qed.

Lemma digits_nonempty d :
  d <> "" -> all_digits d = true -> digits_prefix 10 d <> [].
Proof.
  destruct d as [|c d]; [congruence|].
  simpl; intros _ H; apply andb_true_iff in H; destruct H as [Hc _].
  rewrite radix_digit_10, Hc; discriminate.
Qed.

Lemma digits_value d :
  all_digits d = true -> mathInt 10 (digits_prefix 10 d) = dec_value d.
Proof.
  intros Hd; rewrite <- (append_nil_r d) at 1.
  now apply (digits_prefix_value d "" 0).
Qed.

Lemma parseInt_signed (plus : bool) d :
  d <> "" -> all_digits d = true ->
  parseInt (String (if plus then "+" else "-")%char d) =
    Some (if plus then dec_value d else - dec_value d).
Proof.
  intros Hne Hd.
  pose proof (digits_nonempty d Hne Hd) as Hds.
  pose proof (digits_value d Hd) as Hv.
  pose proof (radix_choice d (digits_not_hex_prefixed d Hd)) as Hr.
  unfold parseInt; destruct plus; cbn [trim_start];
    match goal with
    | |- context [is_ws ?c] => change (is_ws c) with false
    end; cbv iota;
    match goal with
    | |- context [code_unit ?c =? 45] =>
        let b := eval vm_compute in (code_unit c =? 45) in
        change (code_unit c =? 45) with b
    end;
    try match goal with
    | |- context [code_unit ?c =? 43] =>
        let b := eval vm_compute in (code_unit c =? 43) in
        change (code_unit c =? 43) with b
    end; cbv iota; rewrite Hr;
    destruct (digits_prefix 10 d) as [|x ds]; try congruence;
    rewrite Hv; f_equal; lia.
Qed.

(** X18.  White space in front of a path id is skipped, and one sign is
    read: with digits after it, a plus sign changes nothing and a minus sign
    negates.  PATCH and DELETE for " 7" or "+7" do what they do for
    "7". *)
Theorem parseInt_space_and_sign (st : store) (v : jsval) (w d : string) :
  all_ws w = true -> d <> "" -> all_digits d = true ->
  parseInt (w ++ d) = Some (dec_value d) /\
  parseInt (w ++ String "+" d) = Some (dec_value d) /\
  parseInt (w ++ String "-" d) = Some (- dec_value d) /\
  patch_task st (w ++ d) v = patch_task st d v /\
  delete_task st (w ++ d) = delete_task st d /\
  patch_task st (w ++ String "+" d) v = patch_task st d v /\
  delete_task st (w ++ String "+" d) = delete_task st d.
Proof.
  intros Hw Hne Hd.
  pose proof (parseInt_digits d Hne Hd) as E0.
  assert (E1 : parseInt (w ++ d) = Some (dec_value d))
    by (now rewrite parseInt_ws).
  assert (E2 : parseInt (w ++ String "+" d) = Some (dec_value d))
    by (rewrite parseInt_ws by exact Hw;
        apply (parseInt_signed true d Hne Hd)).
  assert (E3 : parseInt (w ++ String "-" d) = Some (- dec_value d))
    by (rewrite parseInt_ws by exact Hw;
        apply (parseInt_signed false d Hne Hd)).
  repeat split; auto.
  - apply patch_task_parse; congruence.
  - apply delete_task_parse; congruence.
  - apply patch_task_parse; congruence.
  - apply delete_task_parse; congruence.
Qed.

Lemma parseInt_space_and_sign_witness :
  parseInt " +1" = Some 1 /\ parseInt " -1" = Some (-1) /\
  delete_task alice_store " +1" = delete_task alice_store "1".
Proof.
  destruct (parseInt_space_and_sign alice_store VNull " " "1"
              eq_refl ltac:(discriminate) eq_refl)
    as (_ & Hp & Hm & _ & _ & _ & Hd).
  split; [exact Hp | split; [exact Hm | exact Hd]].
Defined.

Lemma radix_digit_16 c :
  radix_digit 16 c = if is_hex c then digit_val c else None.
Proof.
  unfold radix_digit, is_hex; destruct (digit_val c) as [d|]; [|reflexivity].
  destruct (d <? 16); reflexivity.
Qed.

Lemma hex_prefix_value h rest acc :
  all_hex h = true -> starts_with_hex rest = false ->
  fold_left (fun a x => a * 16 + x) (digits_prefix 16 (h ++ rest)%string) acc
  = hex_value_from acc h.
Proof.
  intros Hh Hr; revert acc; induction h as [|c h IH]; intros acc;
    cbn [append digits_prefix hex_value_from].
  - destruct rest as [|c r]; cbn [digits_prefix]; [reflexivity|].
    simpl in Hr; now rewrite radix_digit_16, Hr.
  - simpl in Hh; apply andb_true_iff in Hh; destruct Hh as [Hc Hh].
    rewrite radix_digit_16, Hc.
    unfold is_hex in Hc; destruct (digit_val c) as [x|]; [|discriminate].
    cbn [fold_left]; rewrite (IH Hh).
    apply (f_equal (fun a => hex_value_from a h)); lia.
Qed.

Lemma parseInt_0x x s :
  is_x x = true ->
  parseInt (String "0" (String x s)) =
    match digits_prefix 16 s with
    | [] => None
    | ds => Some (mathInt 16 ds)
    end.
Proof.
  intros Hx; unfold parseInt; cbn [trim_start].
  change (is_ws "0") with false; cbv iota.
  change (code_unit "0" =? 45) with false.
  change (code_unit "0" =? 43) with false; cbv beta iota zeta.
  change (code_unit "0" =? 48) with true.
  rewrite Hx; cbn [andb]; cbv beta iota zeta.
  destruct (digits_prefix 16 s) as [|d ds]; [reflexivity|].
  now rewrite Z.mul_1_l.
Qed.

(** X19.  A path id that starts with [0x] or [0X] is read in radix 16: with
    hexadecimal digits after the prefix it parses to the number they denote,
    so PATCH and DELETE for "0xa" act on task 10; with no hexadecimal digit
    after the prefix it parses to [NaN], and PATCH and DELETE answer 404 and
    leave the store as it was. *)
Theorem parseInt_hex (st : store) (v : jsval) (x : ascii) (h rest : string) :
  is_x x = true -> all_hex h = true -> starts_with_hex rest = false ->
  (h <> "" ->
   parseInt (String "0" (String x (h ++ rest))) = Some (hex_value h) /\
   find_task st (String "0" (String x (h ++ rest))) =
     find (fun t => Task.id t =? hex_value h) (tasks st)) /\
  (parseInt (String "0" (String x rest)) = None /\
   patch_task st (String "0" (String x rest)) v =
     (send 404 "Task not found", st) /\
   delete_task st (String "0" (String x rest)) =
     (send 404 "Task not found or already deleted", st)).
Proof.
  intros Hx Hh Hr; split.
  - intros Hne.
    assert (E : parseInt (String "0" (String x (h ++ rest))) =
                Some (hex_value h)).
    { rewrite (parseInt_0x x _ Hx).
      pose proof (hex_prefix_value h rest 0 Hh Hr) as Hv.
      destruct (digits_prefix 16 (h ++ rest)) as [|d ds] eqn:Ed.
      - exfalso; destruct h as [|c h]; [congruence|].
        cbn [append digits_prefix] in Ed.
        simpl in Hh; apply andb_true_iff in Hh; destruct Hh as [Hc _].
        rewrite radix_digit_16, Hc in Ed.
        unfold is_hex in Hc; destruct (digit_val c); discriminate.
      - unfold mathInt, hex_value; now rewrite Hv. }
    split; [exact E|].
    unfold find_task; now rewrite E.
  - assert (E : parseInt (String "0" (String x rest)) = None).
    { rewrite (parseInt_0x x _ Hx).
      destruct rest as [|c r]; [reflexivity|].
      cbn [digits_prefix]; simpl in Hr; now rewrite radix_digit_16, Hr. }
    split; [exact E | split].
    + apply patch_task_missing, no_task_nan, E.
    + apply delete_task_missing, no_task_nan, E.
Qed.

Lemma parseInt_hex_witness :
  parseInt "0xa" = Some 10 /\
  find_task ten_store "0xa" =
    Some (Task.mk 10 (VStr "alice") (VStr "t") (VStr "backlog")) /\
  delete_task ten_store "0xg" =
    (send 404 "Task not found or already deleted", ten_store).
Proof.
  destruct (parseInt_hex ten_store VNull "x" "a" "" eq_refl eq_refl eq_refl)
    as [Ha _].
  destruct (parseInt_hex ten_store VNull "x" "" "g" eq_refl eq_refl eq_refl)
    as [_ (_ & _ & Hg)].
  destruct (Ha ltac:(discriminate)) as [Hp Hf].
  split; [exact Hp | split; [|exact Hg]].
  exact (eq_trans Hf eq_refl).
Defined.

(** ** Usernames are not repeated *)

Lemma handle_users_cases {B : Bcrypt} st r :
  users (snd (handle st r)) = users st \/
  exists u h,
    find_user st u = None /\
    users (snd (handle st r)) = users st ++ [User.mk u h].
Proof.
  destruct r; simpl.
  - unfold post_register.
    destruct (bcrypt_hash _ _ _) as [h|]; [|now left].
    destruct (find_user st username) eqn:Ef; [now left|].
    right; exists username, h; auto.
  - rewrite post_login_store; now left.
  - unfold post_task; destruct (find_user st username); now left.
  - unfold patch_task; destruct (find_task st id); [|now left].
    destruct (negb _); now left.
  - unfold delete_task; destruct (Nat.eqb _ _); now left.
  - rewrite get_tasks_store; now left.
Qed.

Lemma handle_usernames {B : Bcrypt} st r :
  NoDup (filter (fun v => negb (is_reference v))
                (map User.username (users st))) ->
  NoDup (filter (fun v => negb (is_reference v))
                (map User.username (users (snd (handle st r))))).
Proof.
  intros Hnd.
  destruct (handle_users_cases st r) as [-> | (u & h & Ef & ->)];
    [exact Hnd|].
  rewrite map_app, filter_app; simpl.
  destruct (is_reference u) eqn:Eu; simpl; [now rewrite app_nil_r|].
  apply NoDup_app; [exact Hnd | constructor; [tauto | constructor] |].
  intros a Ha [<-|[]].
  apply filter_In in Ha; destruct Ha as [Ha _].
  now apply (find_user_primitive st u Eu) in Ef.
Qed.

(** X20.  In a store the service can be in, no two user records carry the
    same username, usernames that are arrays or objects apart: the strings,
    numbers, booleans, [null] and [undefined] among the stored usernames are
    pairwise distinct. *)
Theorem usernames_distinct {B : Bcrypt} (tr : list request) :
  NoDup (filter (fun v => negb (is_reference v))
                (map User.username (users (run tr init)))).
Proof.
  assert (H : forall st,
            NoDup (filter (fun v => negb (is_reference v))
                          (map User.username (users st))) ->
            NoDup (filter (fun v => negb (is_reference v))
                          (map User.username (users (run tr st))))).
  { induction tr as [|r tr IH]; intros st Hnd; [exact Hnd|].
    apply (IH (snd (handle st r))); now apply handle_usernames. }
  apply H; constructor.
Qed.

(** ** Tasks stay until they are deleted *)



(** ** The process and the runs *)

Lemma serve_all_down {B : Bcrypt} tr : serve_all tr Down = Down.
Proof. induction tr as [|r tr IH]; [reflexivity | exact IH]. Qed.

(** A store of a process that is still up after serving [tr] is the store
    of the run of [tr]: what is proved of [run tr init] holds of every store
    a live process has. *)
Lemma serve_all_up {B : Bcrypt} tr st st' :
  serve_all tr (Up st) = Up st' -> st' = run tr st.
Proof.
  revert st; induction tr as [|r tr IH]; intros st; simpl.
  - intros E; now injection E.
  - unfold serve_all in *; simpl.
    destruct (handle st r) as [[w|] st1] eqn:E; simpl.
    + intros H; rewrite (IH _ H); reflexivity.
    + intros H; pose proof (serve_all_down tr) as Hd.
      unfold serve_all in Hd; rewrite Hd in H; discriminate.
Qed.

(** ** The ids of the tasks in the store *)

Lemma skipn_own_length {A : Type} (l l' : list A) :
  skipn (List.length l) (l ++ l') = l'.
Proof. induction l as [|x l IH]; simpl; auto. Qed.

Lemma stored_step {B : Bcrypt} st r :
  match r, status_of (fst (handle st r)) with
  | CreateTask _ _, Some 201 =>
      map Task.id (skipn (List.length (tasks st)) (tasks (snd (handle st r))))
  | _, _ => []
  end = assigned st r.
Proof.
  destruct r; simpl; try reflexivity.
  unfold post_task; destruct (find_user st username); simpl; [|reflexivity].
  now rewrite skipn_own_length.
Qed.

Lemma stored_ids_assigned {B : Bcrypt} tr st :
  stored_ids tr st = assigned_ids tr st.
Proof.
  revert st; induction tr as [|r tr IH]; intros st; [reflexivity|].
  cbn [stored_ids assigned_ids]; now rewrite stored_step, IH.
Qed.

Lemma creations_step {B : Bcrypt} st r :
  match r, status_of (fst (handle st r)) with
  | CreateTask _ _, Some 201 => 1%nat
  | _, _ => 0%nat
  end = List.length (assigned st r).
Proof.
  destruct r; simpl; try reflexivity.
  unfold post_task; destruct (find_user st username); reflexivity.
Qed.

Lemma creations_assigned {B : Bcrypt} tr st :
  creations tr st = List.length (assigned_ids tr st).
Proof.
  revert st; induction tr as [|r tr IH]; intros st; [reflexivity|].
  cbn [creations assigned_ids].
  now rewrite creations_step, IH, length_app.
Qed.

(** C3.  Along any sequence of requests served from the initial store: the
    ids of the tasks that the successful POST /task requests put in the
    task collection are 1, 2, 3, ... in that order, each greater than the
    ones before; the counter is one more than the number of those requests,
    and no request makes it smaller; the ids of the held tasks are strictly
    increasing along the collection, so pairwise distinct; and a POST /task
    answered 201 adds at the end of the collection one task, whose id is one
    more than the number of tasks created before it and is the id of no
    task held at that moment or at any earlier moment of the run, deleted
    since or not. *)
Theorem ids_never_reused {B : Bcrypt} (tr : list request) :
  let st := run tr init in
  let n := creations tr init in
  stored_ids tr init = map Z.of_nat (seq 1 n) /\
  (forall i j, (i < j < n)%nat ->
     nth i (stored_ids tr init) 0 < nth j (stored_ids tr init) 0) /\
  taskId st = 1 + Z.of_nat n /\
  (forall r, taskId st <= taskId (run (tr ++ [r]) init)) /\
  StronglySorted Z.lt (map Task.id (tasks st)) /\
  (forall u t,
     status_of (fst (post_task st u t)) = Some 201 ->
     exists x,
       tasks (snd (post_task st u t)) = tasks st ++ [x] /\
       Task.id x = 1 + Z.of_nat n /\
       forall tr1 tr2,
         tr = tr1 ++ tr2 ->
         ~ In (Task.id x) (map Task.id (tasks (run tr1 init)))).
Proof.
  intros st n.
  destruct (assigned_ids_from tr init) as [Ha Hc].
  rewrite <- creations_assigned in Ha, Hc.
  rewrite <- stored_ids_assigned in Ha.
  fold n in Ha, Hc; fold st in Hc; simpl taskId in Ha, Hc.
  assert (Hseq : stored_ids tr init = map Z.of_nat (seq 1 n)).
  { rewrite Ha, <- seq_shift, map_map.
    apply map_ext; intros k; lia. }
  split; [exact Hseq | split; [|split; [exact Hc | split; [|split]]]].
  - intros i j Hij; rewrite Hseq; now apply seq_increasing.
  - intros r; unfold st; rewrite run_snoc, handle_counter; lia.
  - apply run_sorted.
  - intros u t H201.
    unfold post_task in *.
    destruct (find_user st u); [|discriminate H201].
    exists (newTask st u t); split; [reflexivity | split].
    + simpl; exact Hc.
    + intros tr1 tr2 -> Hin.
      apply in_map_iff in Hin; destruct Hin as (x & E & Hx).
      pose proof (wf_bound _ (run_wf tr1) x Hx) as Hb.
      pose proof (run_counter_mono tr2 (run tr1 init)) as Hm.
      rewrite <- run_app in Hm; fold st in Hm; simpl in E; lia.
Qed.

Lemma ids_never_reused_witness :
  @stored_ids demo_bcrypt busy_trace init = [1; 2; 3] /\
  map Task.id (tasks busy_store) = [1; 3] /\
  exists x,
    tasks (snd (post_task busy_store (VStr "alice") (VStr "d"))) =
      tasks busy_store ++ [x] /\
    Task.id x = 4 /\
    ~ In (Task.id x)
         (map Task.id
            (tasks (@run demo_bcrypt
                      [ Register (VStr "alice") (VStr "pw1") "salt";
                        CreateTask (VStr "alice") (VStr "a");
                        CreateTask (VStr "alice") (VStr "b") ] init))).
Proof.
  split; [reflexivity | split; [reflexivity|]].
  destruct (proj2 (proj2 (proj2 (proj2 (proj2
              (@ids_never_reused demo_bcrypt busy_trace)))))
              (VStr "alice") (VStr "d") eq_refl)
    as (x & Ht & Hid & Hfresh).
  exists x; split; [exact Ht | split; [exact Hid|]].
  apply (Hfresh
           [ Register (VStr "alice") (VStr "pw1") "salt";
             CreateTask (VStr "alice") (VStr "a");
             CreateTask (VStr "alice") (VStr "b") ]
           [ DeleteTask "2"; CreateTask (VStr "alice") (VStr "c") ]
           eq_refl).
Defined.
